(** * MAB-VLSI sampling: a shallow embedding of [mab/sampling.py]

    The module defines the abstract [Sampler], its three concrete
    subclasses ([GaussianSampler], [KdeSampler], [ToolSampler]) and the
    aggregator [SamplerSet].  The code is Python 2: [map] and [zip] build
    lists eagerly, so a call either returns a list or raises.

    - Python dicts keyed by attribute name are [gmap string V].
    - Python floats are an abstract type [V]; what numpy, scipy, the shell
      and [float()] do is collected in the class [Platform].
    - Effects (the global numpy random state, the buffer files, the
      external process, the logger) are threaded through a [World]; a
      raised exception is the left injection of the result, and the world
      reached when it was raised is kept. *)

From Stdlib Require Import Ascii.
From stdpp Require Import gmap strings list fin_maps pretty.

Set Default Proof Using "Type".
Open Scope string_scope.
Open Scope list_scope.
Open Scope Z_scope.

(** ** Python values shared by all classes *)

(** Exceptions the module can raise, with the datum their message carries. *)
Inductive exn : Type :=
| NotImplementedError (msg : string)
| KeyError (key : string)          (* [d[key]] on a dict without [key] *)
| ValueError (arg : string)        (* [float(arg)] on a non-numeric [arg] *)
| IOError (path : string)          (* [open(path, "r")] on a missing file *)
| LibraryError (msg : string).     (* raised inside numpy, scipy or a collaborator *)

(** [dict(pairs)]: pairs are inserted left to right, a later pair
    replaces an earlier one with the same key. *)
Definition dict_store {V : Type} (d : gmap string V) (kv : string * V)
  : gmap string V :=
  <[kv.1 := kv.2]> d.

Definition dict {V : Type} (pairs : list (string * V)) : gmap string V :=
  fold_left dict_store pairs ∅.

(** [d.update(other)]: every binding of [other] is written into [d]. *)
Definition dict_update {V : Type} (d other : gmap string V) : gmap string V :=
  other ∪ d.

(** [name in d] *)
Definition dict_contains {V : Type} (d : gmap string V) (name : string) : bool :=
  bool_decide (is_Some (d !! name)).

(** [d[name]] *)
Definition dict_getitem {V : Type} (d : gmap string V) (name : string) : exn + V :=
  match d !! name with
  | Some v => inr v
  | None => inl (KeyError name)
  end.

(** [count * [x]]: a non-positive count gives the empty list. *)
Definition list_repeat {A : Type} (count : Z) (x : A) : list A :=
  replicate (Z.to_nat count) x.

(** [zip] applied to the unpacked list of columns: the rows, as many as
    the shortest column has entries; no column at all gives no row. *)
Fixpoint zip_rows {A : Type} (fuel : nat) (data : list (list A)) : list (list A) :=
  match fuel with
  | O => []
  | S fuel' =>
      match mapM head data with
      | Some row => row :: zip_rows fuel' (tail <$> data)
      | None => []
      end
  end.

Definition zip_star {A : Type} (data : list (list A)) : list (list A) :=
  match data with
  | [] => []
  | column :: _ => zip_rows (length column) data
  end.

(** ** Text of the buffer files *)

Definition newline : ascii := Ascii.ascii_of_nat 10.
Definition comma : ascii := Ascii.ascii_of_nat 44.

(** [str.isspace] on one character: space, tab, LF, VT, FF, CR. *)
Definition is_space (c : ascii) : bool :=
  let n := Ascii.nat_of_ascii c in
  (Nat.eqb n 32 || (Nat.leb 9 n && Nat.leb n 13))%bool.

(** [s.rstrip()] *)
Fixpoint rstrip (s : string) : string :=
  match s with
  | EmptyString => EmptyString
  | String c s' =>
      match rstrip s' with
      | EmptyString => if is_space c then EmptyString else String c EmptyString
      | r => String c r
      end
  end.

(** [s.split(sep)] for a one-character separator: never the empty list. *)
Fixpoint split (sep : ascii) (s : string) : list string :=
  match s with
  | EmptyString => [EmptyString]
  | String c s' =>
      if Ascii.eqb c sep then EmptyString :: split sep s'
      else match split sep s' with
           | field :: fields => String c field :: fields
           | [] => [String c EmptyString]
           end
  end.

(** The lines of a text file as iteration and [readline] give them: each
    line keeps its terminating newline, the last one may lack it. *)
Fixpoint file_lines (s : string) : list string :=
  match s with
  | EmptyString => []
  | String c s' =>
      if Ascii.eqb c newline then String c EmptyString :: file_lines s'
      else match file_lines s' with
           | line :: lines => String c line :: lines
           | [] => [String c EmptyString]
           end
  end.

(** [c in s] for a character [c] *)
Fixpoint occurs (c : ascii) (s : string) : bool :=
  match s with
  | EmptyString => false
  | String c' s' => (Ascii.eqb c' c || occurs c s')%bool
  end.

(** [sep.join(fields)] *)
Fixpoint join (sep : string) (fields : list string) : string :=
  match fields with
  | [] => EmptyString
  | [f] => f
  | f :: fs => f +:+ sep +:+ join sep fs
  end.

(** ** The platform: numpy, scipy, the shell and float conversion *)

Class Platform (V : Type) : Type := {
  (** state of numpy's global random generator *)
  RNG : Type;
  (** a fitted [scipy.stats.gaussian_kde] *)
  KdeEstimate : Type;
  fzero : V;
  fmul : V → V → V;
  (** [float(s)]; [None] when Python raises [ValueError] *)
  float_of_string : string → option V;
  (** ['%1.5f' % x] *)
  format_float : V → string;
  (** [np.random.multivariate_normal(mean, cov, size)] *)
  multivariate_normal :
    list V → list (list V) → Z → RNG → (exn + list (list V)) * RNG;
  (** [gaussian_kde(data)] *)
  gaussian_kde : list V → exn + KdeEstimate;
  (** [kde.resample(count).tolist()[0]] *)
  kde_resample : KdeEstimate → Z → RNG → (exn + list V) * RNG;
  (** [subprocess.call(cmd, shell=True)]: exit status and the files the
      process leaves behind *)
  subprocess_call : string → gmap string string → Z * gmap string string;
}.

Section Sampling.
Context {V : Type} `{P : Platform V}.

(** ** Sample *)

(** Modelled from the spec: [utils.Sample] is imported, not defined, by
    [sampling.py].  The spec describes it as a standalone value object
    holding the attribute mapping, with metric and validity derived by
    applying the two stored functions to that mapping. *)
Record Sample : Type := {
  attributes : gmap string V;
  sample_metric_function : gmap string V → V;
  sample_valid_function : gmap string V → bool;
}.

Definition metric (s : Sample) : V := sample_metric_function s (attributes s).
Definition valid (s : Sample) : bool := sample_valid_function s (attributes s).

(** ** Sampler *)

Record Sampler : Type := {
  attribute_names : list string;
  metric_function : gmap string V → V;
  valid_function : gmap string V → bool;
  constants : gmap string V;
}.

Definition make_sample (self : Sampler) (attribute_values : list V) : Sample :=
  let attributes := dict (zip (attribute_names self) attribute_values) in
  let attributes := dict_update attributes (constants self) in
  {| attributes := attributes;
     sample_metric_function := metric_function self;
     sample_valid_function := valid_function self |}.

Definition Sampler_get_samples_message : string := "Get samples not implemented".

(** ** Effects *)

Inductive Event : Type :=
| AddNoise (params : list V) (count : Z)     (* [noise_model.add_noise] called *)
| WriteFile (path content : string)          (* a file opened for writing and filled *)
| RunProcess (cmd : string)                  (* [subprocess.call] *)
| ReadFile (path : string)                   (* a file opened for reading *)
| LogWarning (msg : string).                 (* [logger.warning] *)

Record World : Type := {
  rng : RNG;
  files : gmap string string;
  trace : list Event;
}.

(** A Python computation: it runs in a world and either raises or returns. *)
Definition Py (A : Type) : Type := World → (exn + A) * World.

Definition ret {A : Type} (x : A) : Py A := λ w, (inr x, w).

Definition raise {A : Type} (e : exn) : Py A := λ w, (inl e, w).

Definition bind {A B : Type} (m : Py A) (k : A → Py B) : Py B :=
  λ w, match m w with
       | (inl e, w') => (inl e, w')
       | (inr a, w') => k a w'
       end.

Notation "'let!' x ':=' m 'in' k" := (bind m (λ x, k))
  (at level 10, x pattern, m at level 100, k at level 200).

(** A pure step that may raise. *)
Definition lift {A : Type} (r : exn + A) : Py A := λ w, (r, w).

Definition emit (e : Event) : Py unit :=
  λ w, (inr (), {| rng := rng w; files := files w; trace := trace w ++ [e] |}).

(** A library call that consumes the global random state. *)
Definition with_rng {A : Type} (f : RNG → (exn + A) * RNG) : Py A :=
  λ w, let '(r, g) := f (rng w) in
       (r, {| rng := g; files := files w; trace := trace w |}).

(** [with open(path, "w+") as f: f.write(content)]: the file is created or
    truncated. *)
Definition write_file (path content : string) : Py unit :=
  λ w, (inr (), {| rng := rng w;
                   files := <[path := content]> (files w);
                   trace := trace w ++ [WriteFile path content] |}).

(** [open(path, "r")] and the text read from it. *)
Definition read_file (path : string) : Py string :=
  λ w, match files w !! path with
       | Some content =>
           (inr content, {| rng := rng w; files := files w;
                            trace := trace w ++ [ReadFile path] |})
       | None => (inl (IOError path), w)
       end.

Definition run_process (cmd : string) : Py Z :=
  λ w, let '(status, fs) := subprocess_call cmd (files w) in
       (inr status, {| rng := rng w; files := fs;
                       trace := trace w ++ [RunProcess cmd] |}).

Definition log_warning (msg : string) : Py unit := emit (LogWarning msg).

(** [[f(x) for x in l]] with [f] run left to right. *)
Fixpoint py_map {A B : Type} (f : A → Py B) (l : list A) : Py (list B) :=
  match l with
  | [] => ret []
  | x :: l' =>
      let! y := f x in
      let! ys := py_map f l' in
      ret (y :: ys)
  end.

(** ** GaussianSampler *)

Record GaussianSampler : Type := {
  gaussian_base :> Sampler;
  attribute_means : list V;
  attribute_stds : list V;
}.

(** [np.diag(v)] for a vector [v] *)
Definition np_diag (v : list V) : list (list V) :=
  imap (λ i x, <[i := x]> (replicate (length v) fzero)) v.

(** [m ** 2], element by element *)
Definition np_square (m : list (list V)) : list (list V) :=
  map (map (λ x, fmul x x)) m.

Definition GaussianSampler_get_samples (self : GaussianSampler) (count : Z)
  : Py (list Sample) :=
  if bool_decide (count = 0) then ret []
  else
    let! samples :=
      with_rng (multivariate_normal (attribute_means self)
                  (np_square (np_diag (attribute_stds self))) count) in
    ret (map (make_sample self) samples).

(** ** KdeSampler *)

Record KdeSampler : Type := {
  kde_base :> Sampler;
  kde_estimates : gmap string KdeEstimate;
}.

(** The list comprehension of [__init__]: one estimate per item of
    [attribute_data] whose name is not a constant. *)
Fixpoint fit_items (constants : gmap string V) (items : list (string * list V))
  : exn + list (string * KdeEstimate) :=
  match items with
  | [] => inr []
  | (name, data) :: rest =>
      if dict_contains constants name then fit_items constants rest
      else match gaussian_kde data with
           | inl e => inl e
           | inr estimate =>
               match fit_items constants rest with
               | inl e => inl e
               | inr fitted => inr ((name, estimate) :: fitted)
               end
           end
  end.

Definition KdeSampler_init (attribute_names : list string)
    (metric_function : gmap string V → V) (valid_function : gmap string V → bool)
    (constants : gmap string V) (attribute_data : gmap string (list V))
  : exn + KdeSampler :=
  match fit_items constants (map_to_list attribute_data) with
  | inl e => inl e
  | inr fitted =>
      inr {| kde_base := {| attribute_names := attribute_names;
                            metric_function := metric_function;
                            valid_function := valid_function;
                            constants := constants |};
             kde_estimates := dict fitted |}
  end.

(** The [for name in self.attribute_names] loop: [data] is the list of
    columns appended so far. *)
Fixpoint kde_columns (self : KdeSampler) (count : Z) (names : list string)
    (data : list (list V)) : Py (list (list V)) :=
  match names with
  | [] => ret data
  | name :: names' =>
      let! data :=
        (if dict_contains (constants self) name
         then let! c := lift (dict_getitem (constants self) name) in
              ret (data ++ [list_repeat count c])
         else ret data) in
      let! estimate := lift (dict_getitem (kde_estimates self) name) in
      let! column := with_rng (kde_resample estimate count) in
      kde_columns self count names' (data ++ [column])
  end.

Definition KdeSampler_get_samples (self : KdeSampler) (count : Z)
  : Py (list Sample) :=
  let data := [] in
  if bool_decide (count = 0) then ret data
  else
    let! data := kde_columns self count (attribute_names self) [] in
    ret (map (make_sample self) (zip_star data)).

(** ** ToolSampler *)

Record ToolSampler : Type := {
  tool_base :> Sampler;
  params : list V;
  (** [noise_model.add_noise]; [utils.NoiseModel] is a collaborator *)
  noise_model : list V → Z → RNG → (exn + list (list V)) * RNG;
  param_buffer : string;
  sample_buffer : string;
  script_path : string;
}.

Definition add_noise (self : ToolSampler) (count : Z) : Py (list (list V)) :=
  let! _ := emit (AddNoise (params self) count) in
  with_rng (noise_model self (params self) count).

(** [np.savetxt(f, rows, delimiter=',', fmt='%1.5f')] *)
Definition savetxt (rows : list (list V)) : string :=
  foldr (λ row text,
           join "," (map format_float row) +:+ String newline EmptyString +:+ text)
        EmptyString rows.

(** [map(float, fields)]: the first field that does not convert raises. *)
Fixpoint map_float (fields : list string) : exn + list V :=
  match fields with
  | [] => inr []
  | field :: fields' =>
      match float_of_string field with
      | None => inl (ValueError field)
      | Some x =>
          match map_float fields' with
          | inl e => inl e
          | inr xs => inr (x :: xs)
          end
      end
  end.

(** The [for line in f] loop. *)
Fixpoint parse_rows (lines : list string) : exn + list (list V) :=
  match lines with
  | [] => inr []
  | line :: lines' =>
      match map_float (split comma line) with
      | inl e => inl e
      | inr row =>
          match parse_rows lines' with
          | inl e => inl e
          | inr rows => inr (row :: rows)
          end
      end
  end.

(** The command line [get_samples] hands to the shell. *)
Definition tool_command (self : ToolSampler) : string :=
  "source " +:+ script_path self.

Definition mismatch_warning : string :=
  "Attribute name mismatch encountered in buffer: trying to ignore".

Definition ToolSampler_get_samples (self : ToolSampler) (count : Z)
  : Py (list Sample) :=
  if bool_decide (count = 0) then ret []
  else
    let! parameter_values := add_noise self count in
    let! _ := write_file (param_buffer self) (savetxt parameter_values) in
    let! _ := run_process (tool_command self) in
    let! content := read_file (sample_buffer self) in
    let lines := file_lines content in
    let header := default EmptyString (head lines) in
    let attributes := split comma (rstrip header) in
    let! _ := (if bool_decide (attributes ≠ attribute_names self)
               then log_warning mismatch_warning
               else ret ()) in
    let! values := lift (parse_rows (tail lines)) in
    ret (map (make_sample self) values).

(** The messages logged as warnings, oldest first. *)
Definition warnings (t : list Event) : list string :=
  omap (λ e, match e with LogWarning msg => Some msg | _ => None end) t.

(** ** SamplerSet *)

(** The objects a [SamplerSet] wraps: anything with a [get_samples]. *)
Inductive AnySampler : Type :=
| Abstract (s : Sampler)
| Gaussian (s : GaussianSampler)
| Kde (s : KdeSampler)
| Tool (s : ToolSampler).

Definition get_samples (s : AnySampler) (count : Z) : Py (list Sample) :=
  match s with
  | Abstract _ => raise (NotImplementedError Sampler_get_samples_message)
  | Gaussian g => GaussianSampler_get_samples g count
  | Kde k => KdeSampler_get_samples k count
  | Tool t => ToolSampler_get_samples t count
  end.

Record SamplerSet : Type := { samplers : list AnySampler }.

Definition SamplerSet_get_samples (self : SamplerSet) (sample_counts : list Z)
  : Py (list (list Sample)) :=
  py_map (λ sc, get_samples sc.1 sc.2) (zip (samplers self) sample_counts).

Definition SamplerSet_len (self : SamplerSet) : nat := length (samplers self).

(** ** Contracts of the libraries *)

(** numpy: for a non-empty mean vector, a square covariance matrix of the
    same dimension and a positive size, the draw returns [size] vectors of
    that dimension. *)
Definition multivariate_normal_contract : Prop :=
  ∀ (mean : list V) (cov : list (list V)) (size : Z) (g : RNG),
    mean ≠ [] →
    length cov = length mean →
    Forall (λ row, length row = length mean) cov →
    0 < size →
    ∃ rows g', multivariate_normal mean cov size g = (inr rows, g')
               ∧ length rows = Z.to_nat size
               ∧ Forall (λ row, length row = length mean) rows.

(** scipy: resampling a fitted estimate with a positive size returns that
    many values. *)
Definition kde_resample_contract : Prop :=
  ∀ (estimate : KdeEstimate) (size : Z) (g : RNG),
    0 < size →
    ∃ column g', kde_resample estimate size g = (inr column, g')
                 ∧ length column = Z.to_nat size.

(** What reading back needs of the formatting of one number [x]: its text
    holds neither a comma nor a newline, and [float] reads it, alone or
    followed by the end of line, as [r x]. *)
Definition reads_back (r : V → V) (x : V) : Prop :=
  occurs comma (format_float x) = false
  ∧ occurs newline (format_float x) = false
  ∧ float_of_string (format_float x) = Some (r x)
  ∧ float_of_string (format_float x +:+ String newline EmptyString) = Some (r x).

(** ** Runs of a sampler collection *)

(** [invoked_in_order ss cs w outs w']: starting in [w], the samplers [ss]
    are called one after the other with the counts [cs], each in the world
    its predecessor left; all return, giving [outs] and the world [w']. *)
Inductive invoked_in_order
  : list AnySampler → list Z → World → list (list Sample) → World → Prop :=
| invoked_nil w : invoked_in_order [] [] w [] w
| invoked_cons s ss c cs w out w1 outs w2 :
    get_samples s c w = (inr out, w1) →
    invoked_in_order ss cs w1 outs w2 →
    invoked_in_order (s :: ss) (c :: cs) w (out :: outs) w2.

End Sampling.

Notation "'let!' x ':=' m 'in' k" := (bind m (λ x, k))
  (at level 10, x pattern, m at level 100, k at level 200).

(** ** A test platform over integers

    Values are integers, the random state is a draw counter, every draw
    of the Gaussian returns the mean vector and every draw of an estimate
    returns the first datum it was fitted on.  The external tool is a
    parameter of the platform. *)
Module Fixture.

Definition digit (c : ascii) : option Z :=
  let n := Z.of_nat (Ascii.nat_of_ascii c) in
  if bool_decide (48 ≤ n ≤ 57) then Some (n - 48) else None.

Fixpoint digits (acc : Z) (s : string) : option Z :=
  match s with
  | EmptyString => Some acc
  | String c s' =>
      match digit c with
      | Some d => digits (10 * acc + d) s'
      | None => None
      end
  end.

Fixpoint lstrip (s : string) : string :=
  match s with
  | EmptyString => EmptyString
  | String c s' => if is_space c then lstrip s' else s
  end.

(** Unsigned decimal integers, surrounding white space allowed. *)
Definition parse (s : string) : option Z :=
  match lstrip (rstrip s) with
  | EmptyString => None
  | t => digits 0 t
  end.

Definition format (x : Z) : string := pretty x +:+ ".00000".

Definition well_shaped (mean : list Z) (cov : list (list Z)) : bool :=
  bool_decide (mean ≠ [] ∧ length cov = length mean
               ∧ Forall (λ row, length row = length mean) cov).

Definition normal (mean : list Z) (cov : list (list Z)) (size : Z) (g : nat)
  : (exn + list (list Z)) * nat :=
  if (well_shaped mean cov && bool_decide (0 ≤ size))%bool
  then (inr (replicate (Z.to_nat size) mean), S g)
  else (inl (LibraryError "multivariate_normal"), g).

Definition fit (data : list Z) : exn + list Z :=
  if bool_decide (length data < 2)%nat then inl (LibraryError "gaussian_kde")
  else inr data.

Definition resample (estimate : list Z) (count : Z) (g : nat)
  : (exn + list Z) * nat :=
  if bool_decide (0 ≤ count)
  then (inr (replicate (Z.to_nat count) (default 0 (head estimate))), S g)
  else (inl (LibraryError "resample"), g).

Definition platform (tool : string → gmap string string → Z * gmap string string)
  : Platform Z :=
  {| RNG := nat;
     KdeEstimate := list Z;
     fzero := 0;
     fmul := Z.mul;
     float_of_string := parse;
     format_float := format;
     multivariate_normal := normal;
     gaussian_kde := fit;
     kde_resample := resample;
     subprocess_call := tool |}.

(** A tool that exits with [status] and leaves the files as they are. *)
Definition idle_tool (status : Z) : string → gmap string string → Z * gmap string string :=
  λ _ fs, (status, fs).

(** A tool that writes [content] to [path] and exits with [status]. *)
Definition writing_tool (path content : string) (status : Z)
  : string → gmap string string → Z * gmap string string :=
  λ _ fs, (status, <[path := content]> fs).

(** The noise model that returns [count] copies of the mean parameters. *)
Definition no_noise (params : list Z) (count : Z) (g : nat)
  : (exn + list (list Z)) * nat :=
  (inr (replicate (Z.to_nat count) params), S g).

Definition metric_zero (attributes : gmap string Z) : Z := 0.

Definition always_valid (attributes : gmap string Z) : bool := true.

Definition sampler (names : list string) (constants : gmap string Z) : Sampler :=
  {| attribute_names := names;
     metric_function := metric_zero;
     valid_function := always_valid;
     constants := constants |}.

(** The platform whose tool does nothing and exits with status 0. *)
Definition idle : Platform Z := platform (idle_tool 0).

(** The sampler [KdeSampler(['a', 'b'], ..., {'b': 5}, {'a': [1, 2]})]. *)
Definition kde_ab : @KdeSampler Z idle :=
  {| kde_base := sampler ["a"; "b"] {["b" := 5]};
     kde_estimates := {["a" := [1; 2]]} |}.


(** The sampler [GaussianSampler(['a', 'b'], ..., {}, [10, 20], [2, 3])]. *)
Definition gaussian_ab : @GaussianSampler Z :=
  {| gaussian_base := sampler ["a"; "b"] ∅;
     attribute_means := [10; 20];
     attribute_stds := [2; 3] |}.

(** A text file with the given lines, each terminated by a newline. *)
Definition text (lines : list string) : string :=
  foldr (λ line rest, line +:+ String newline rest) EmptyString lines.

(** The sampler [ToolSampler(['a', 'b'], ..., {}, 'params.csv',
    'samples.csv', 'run.sh', [1, 2])] on the platform with the given tool. *)
Definition tool_ab (tool : string → gmap string string → Z * gmap string string)
  : @ToolSampler Z (platform tool) :=
  @Build_ToolSampler Z (platform tool)
    (sampler ["a"; "b"] ∅) [1; 2] no_noise "params.csv" "samples.csv" "run.sh".

(** A noise model that raises. *)
Definition broken_noise (params : list Z) (count : Z) (g : nat)
  : (exn + list (list Z)) * nat :=
  (inl (LibraryError "add_noise"), g).

(** [tool_ab] with the noise model that raises. *)
Definition tool_broken_noise
    (tool : string → gmap string string → Z * gmap string string)
  : @ToolSampler Z (platform tool) :=
  @Build_ToolSampler Z (platform tool)
    (sampler ["a"; "b"] ∅) [1; 2] broken_noise "params.csv" "samples.csv" "run.sh".

(** The platform of [platform tool] with numbers written without
    decimals, so that what is written can be read back by [parse]. *)
Definition plain_platform (tool : string → gmap string string → Z * gmap string string)
  : Platform Z :=
  {| RNG := nat;
     KdeEstimate := list Z;
     fzero := 0;
     fmul := Z.mul;
     float_of_string := parse;
     format_float := pretty;
     multivariate_normal := normal;
     gaussian_kde := fit;
     kde_resample := resample;
     subprocess_call := tool |}.

(** A tool that copies the parameter buffer to the sample buffer behind
    the header line ['a,b'] and exits with status 0. *)
Definition echo_tool : string → gmap string string → Z * gmap string string :=
  λ _ fs, match fs !! "params.csv" with
          | Some table =>
              (0, <["samples.csv" := "a,b" +:+ String newline table]> fs)
          | None => (1, fs)
          end.

(** [tool_ab] on the plain platform. *)
Definition plain_tool_ab
    (tool : string → gmap string string → Z * gmap string string)
  : @ToolSampler Z (plain_platform tool) :=
  @Build_ToolSampler Z (plain_platform tool)
    (sampler ["a"; "b"] ∅) [1; 2] no_noise "params.csv" "samples.csv" "run.sh".

Definition world (P : Platform Z) (g : @RNG Z P) (fs : gmap string string)
  : @World Z P :=
  {| rng := g; files := fs; trace := [] |}.

End Fixture.

(** * Properties *)

(** ** Pairing two sequences *)

Section ZipFacts.
Context {A B : Type}.

(** [zip] only looks at as many elements as the shorter sequence has. *)
Lemma zip_take (l : list A) (k : list B) (n m : nat) :
  (length l `min` length k ≤ n)%nat →
  (length l `min` length k ≤ m)%nat →
  zip (take n l) (take m k) = zip l k.
Proof.
  revert k n m.
  induction l as [|a l IH]; intros [|b k] [|n] [|m]; cbn;
    intros; try done; try lia.
  f_equal. apply IH; lia.
Qed.

Lemma zip_length_min (l : list A) (k : list B) :
  length (zip l k) = (length l `min` length k)%nat.
Proof. apply length_zip_with. Qed.

End ZipFacts.

(** ** Transposing columns into rows *)

Section ZipStarFacts.
Context {A : Type}.
Implicit Types (data : list (list A)).

Lemma zip_rows_length n data :
  Forall (λ column, length column = n) data → length (zip_rows n data) = n.
Proof.
  revert data. induction n as [|n IH]; intros data Hdata; [done|]. cbn.
  destruct (mapM head data) as [row|] eqn:Hrow.
  - cbn. f_equal. apply IH. apply Forall_fmap.
    eapply Forall_impl; [exact Hdata|]. intros [|x column]; cbn; [done|lia].
  - apply mapM_None in Hrow. apply Exists_exists in Hrow as (column & Hin & Hhead).
    rewrite Forall_forall in Hdata. specialize (Hdata column Hin).
    by destruct column.
Qed.

(** Row [i] collects entry [i] of every column, in column order. *)
Lemma zip_rows_lookup n data i :
  Forall (λ column, length column = n) data → (i < n)%nat →
  zip_rows n data !! i = mapM (.!! i) data.
Proof.
  revert data i. induction n as [|n IH]; intros data i Hdata Hi; [lia|]. cbn.
  assert (Htails : Forall (λ column, length column = n) (tail <$> data)).
  { apply Forall_fmap. eapply Forall_impl; [exact Hdata|].
    intros [|x column]; cbn; [done|lia]. }
  destruct (mapM head data) as [row|] eqn:Hrow.
  - destruct i as [|i]; cbn.
    + rewrite <- Hrow. apply mapM_ext. intros column. by rewrite head_lookup.
    + rewrite IH by (done || lia). clear.
      induction data as [|column data IHd]; [done|]. cbn.
      by rewrite lookup_tail, IHd.
  - apply mapM_None in Hrow. apply Exists_exists in Hrow as (column & Hin & Hhead).
    rewrite Forall_forall in Hdata. specialize (Hdata column Hin).
    by destruct column.
Qed.

Lemma zip_star_length n data :
  data ≠ [] → Forall (λ column, length column = n) data →
  length (zip_star data) = n.
Proof.
  destruct data as [|column data]; [done|]. intros _ Hdata. cbn [zip_star].
  rewrite (Forall_inv Hdata). by apply zip_rows_length.
Qed.

Lemma zip_star_lookup n data i :
  data ≠ [] → Forall (λ column, length column = n) data → (i < n)%nat →
  zip_star data !! i = mapM (.!! i) data.
Proof.
  destruct data as [|column data]; [done|]. intros _ Hdata Hi. cbn [zip_star].
  rewrite (Forall_inv Hdata). by apply zip_rows_lookup.
Qed.

End ZipStarFacts.

(** ** Dictionaries built from pairs *)

Section DictFacts.
Context {V : Type}.
Implicit Types (l : list (string * V)) (m : gmap string V) (k : string).


Lemma fold_store_unbound l m k :
  k ∉ l.*1 → fold_left dict_store l m !! k = m !! k.
Proof.
  revert m. induction l as [|[k' v'] l IH]; intros m Hk; [done|].
  cbn in *. apply not_elem_of_cons in Hk as [Hne Hk].
  rewrite IH by done. by rewrite lookup_insert_ne.
Qed.

Lemma fold_store_dom l m :
  dom (fold_left dict_store l m) = list_to_set l.*1 ∪ dom m.
Proof.
  revert m. induction l as [|[k' v'] l IH]; intros m; cbn.
  - set_solver.
  - rewrite IH, dom_insert_L. set_solver.
Qed.

Lemma fold_store_last l m i k v :
  l !! i = Some (k, v) →
  (∀ j v', (i < j)%nat → l !! j ≠ Some (k, v')) →
  fold_left dict_store l m !! k = Some v.
Proof.
  revert m i. induction l as [|[k' v'] l IH]; intros m i Hi Hlast; [done|].
  destruct i as [|i]; cbn in *.
  - simplify_eq. rewrite fold_store_unbound; [by rewrite lookup_insert_eq|].
    intros Hin. apply list_elem_of_fmap in Hin as ([k1 v1] & -> & Hin).
    apply list_elem_of_lookup in Hin as [j Hj].
    apply (Hlast (S j) v1); [lia|done].
  - apply (IH _ i); [done|]. intros j v1 Hlt. apply (Hlast (S j) v1). lia.
Qed.

Lemma dict_dom l : dom (dict l) = list_to_set l.*1.
Proof. unfold dict. rewrite fold_store_dom. set_solver. Qed.

Lemma dict_lookup_last l i k v :
  l !! i = Some (k, v) →
  (∀ j v', (i < j)%nat → l !! j ≠ Some (k, v')) →
  dict l !! k = Some v.
Proof. apply fold_store_last. Qed.

Lemma dict_lookup_unbound l k : k ∉ l.*1 → dict l !! k = None.
Proof. intros Hk. unfold dict. by rewrite fold_store_unbound. Qed.

Lemma zip_keys (names : list string) (values : list V) :
  (zip names values).*1 = take (length values) names.
Proof.
  revert values. induction names as [|n names IH]; intros [|x values]; cbn; try done.
  by rewrite IH.
Qed.


Lemma dict_update_lookup_constant (d c : gmap string V) k v :
  c !! k = Some v → dict_update d c !! k = Some v.
Proof. intros Hc. unfold dict_update. by apply lookup_union_Some_l. Qed.

Lemma dict_update_lookup_other (d c : gmap string V) k :
  c !! k = None → dict_update d c !! k = d !! k.
Proof. intros Hc. unfold dict_update. by apply lookup_union_r. Qed.

Lemma dict_update_dom (d c : gmap string V) :
  dom (dict_update d c) = dom d ∪ dom c.
Proof. unfold dict_update. rewrite dom_union_L. set_solver. Qed.

End DictFacts.

(** ** make_sample *)

Section MakeSample.
Context {V : Type}.
Implicit Types (self : @Sampler V) (values : list V).

Lemma make_sample_dom self values :
  dom (attributes (make_sample self values))
  = list_to_set (take (length values) (attribute_names self)) ∪ dom (constants self).
Proof. cbn. by rewrite dict_update_dom, dict_dom, zip_keys. Qed.

Lemma make_sample_positional self values i k :
  attribute_names self !! i = Some k →
  (i < length values)%nat →
  constants self !! k = None →
  (∀ j, (i < j < length values)%nat → attribute_names self !! j ≠ Some k) →
  attributes (make_sample self values) !! k = values !! i.
Proof.
  intros Hk Hi Hc Hlast. cbn. rewrite dict_update_lookup_other by done.
  destruct (lookup_lt_is_Some_2 values i Hi) as [x Hx]. rewrite Hx.
  apply (dict_lookup_last _ i).
  - apply lookup_zip_with_Some. eauto.
  - intros j v' Hlt Hj. apply lookup_zip_with_Some in Hj as (k1 & x1 & ? & Hj & Hv).
    simplify_eq. apply (Hlast j); [|done]. split; [done|].
    by apply lookup_lt_Some in Hv.
Qed.

(** C1: with as many values as attribute names, the keys of the sample's
    attribute mapping are exactly the attribute names together with the
    names of the constants; every constant is bound to its constant value
    (also when an attribute name is the same); every attribute name that
    is not a constant is bound to the value at its position (at its last
    position when the name is listed more than once, so at its position
    when the names are distinct); the sample carries the sampler's metric
    and validity functions. *)
Theorem make_sample_matching self values :
  length values = length (attribute_names self) →
  let sample := make_sample self values in
  dom (attributes sample)
    = list_to_set (attribute_names self) ∪ dom (constants self)
  ∧ (∀ k c, constants self !! k = Some c → attributes sample !! k = Some c)
  ∧ (∀ i k, attribute_names self !! i = Some k →
            constants self !! k = None →
            (∀ j, (i < j)%nat → attribute_names self !! j ≠ Some k) →
            attributes sample !! k = values !! i)
  ∧ (NoDup (attribute_names self) →
     ∀ i k, attribute_names self !! i = Some k →
            constants self !! k = None →
            attributes sample !! k = values !! i)
  ∧ sample_metric_function sample = metric_function self
  ∧ sample_valid_function sample = valid_function self
  ∧ metric sample = metric_function self (attributes sample)
  ∧ valid sample = valid_function self (attributes sample).
Proof.
  intros Hlen sample.
  assert (Hpos : ∀ i k, attribute_names self !! i = Some k →
            constants self !! k = None →
            (∀ j, (i < j)%nat → attribute_names self !! j ≠ Some k) →
            attributes sample !! k = values !! i).
  { intros i k Hk Hc Hlast. apply make_sample_positional; try done.
    - rewrite Hlen. by apply lookup_lt_Some in Hk.
    - intros j [Hlt _]. by apply Hlast. }
  split_and!; try done.
  - unfold sample. rewrite make_sample_dom, Hlen, firstn_all. done.
  - intros k c Hc. by apply dict_update_lookup_constant.
  - intros Hnd i k Hk Hc. apply Hpos; try done.
    intros j Hlt Hj. pose proof (NoDup_lookup _ _ _ _ Hnd Hk Hj). lia.
Qed.

(** C10: [make_sample] is total whatever the number of values.  Names
    and values are paired up to the shorter of the two sequences: the
    keys are the first [len(values)] attribute names together with the
    constants, so a trailing name without a value is absent unless it is
    a constant (or is listed again among the paired names), and values
    beyond the last attribute name do not influence the sample. *)
Theorem make_sample_length_mismatch self values :
  let sample := make_sample self values in
  let paired := (length (attribute_names self) `min` length values)%nat in
  sample = make_sample
             {| attribute_names := take paired (attribute_names self);
                metric_function := metric_function self;
                valid_function := valid_function self;
                constants := constants self |}
             (take paired values)
  ∧ dom (attributes sample)
    = list_to_set (take (length values) (attribute_names self))
      ∪ dom (constants self)
  ∧ (∀ i k, attribute_names self !! i = Some k →
            (length values ≤ i)%nat →
            constants self !! k = None →
            k ∉ take (length values) (attribute_names self) →
            attributes sample !! k = None)
  ∧ (∀ k c, constants self !! k = Some c → attributes sample !! k = Some c)
  ∧ (∀ i k, attribute_names self !! i = Some k →
            (i < length values)%nat →
            constants self !! k = None →
            (∀ j, (i < j < length values)%nat →
                  attribute_names self !! j ≠ Some k) →
            attributes sample !! k = values !! i)
  ∧ sample = make_sample self (take (length (attribute_names self)) values)
  ∧ (∀ surplus, (length (attribute_names self) ≤ length values)%nat →
                make_sample self (values ++ surplus) = sample).
Proof.
  intros sample paired. split_and!.
  - unfold sample, make_sample; cbn. by rewrite zip_take.
  - apply make_sample_dom.
  - intros i k Hk Hi Hc Hnot. cbn. rewrite dict_update_lookup_other by done.
    apply dict_lookup_unbound. by rewrite zip_keys.
  - intros k c Hc. by apply dict_update_lookup_constant.
  - intros i k. apply make_sample_positional.
  - unfold sample, make_sample.
    rewrite <- (zip_take (attribute_names self) values
                  (length (attribute_names self)) (length (attribute_names self)))
      by lia.
    by rewrite firstn_all.
  - intros surplus Hle. unfold sample, make_sample.
    rewrite <- (zip_take _ (values ++ surplus) (length (attribute_names self))
                  (length (attribute_names self))) by lia.
    rewrite take_app_le by done.
    by rewrite zip_take by lia.
Qed.

End MakeSample.

Lemma make_sample_matching_witness :
  let self := Fixture.sampler ["a"; "b"] {["b" := 7; "c" := 9]} in
  let sample := make_sample self [1; 2] in
  attributes sample !! "a" = Some 1
  ∧ attributes sample !! "b" = Some 7
  ∧ attributes sample !! "c" = Some 9
  ∧ dom (attributes sample) = {["a"; "b"; "c"]}.
Proof.
  intros self sample.
  destruct (make_sample_matching self [1; 2] eq_refl)
    as (Hdom & Hconst & Hpos & _).
  split_and!.
  - apply (Hpos 0%nat "a"); [reflexivity|reflexivity|].
    intros [|[|j]] Hlt; cbn; [lia|discriminate|discriminate].
  - apply Hconst. reflexivity.
  - apply Hconst. reflexivity.
  - fold sample in Hdom. rewrite Hdom. apply set_eq. intros k.
    cbn. rewrite !dom_insert_L. set_solver.
Defined.

(** ** The effect monad *)

Section PyFacts.
Context {V : Type} `{P : Platform V}.

Lemma bind_ret_l {A B : Type} (x : A) (k : A → Py B) w :
  bind (ret x) k w = k x w.
Proof. reflexivity. Qed.

Lemma bind_returns {A B : Type} (m : Py A) (k : A → Py B) w a w1 :
  m w = (inr a, w1) → bind m k w = k a w1.
Proof. intros Hm. unfold bind. by rewrite Hm. Qed.

Lemma bind_raises {A B : Type} (m : Py A) (k : A → Py B) w e w1 :
  m w = (inl e, w1) → bind m k w = (inl e, w1).
Proof. intros Hm. unfold bind. by rewrite Hm. Qed.

Lemma bind_inv {A B : Type} (m : Py A) (k : A → Py B) w b w2 :
  bind m k w = (inr b, w2) →
  ∃ a w1, m w = (inr a, w1) ∧ k a w1 = (inr b, w2).
Proof.
  unfold bind. destruct (m w) as [[e|a] w1]; intros Hk; [done|]. eauto.
Qed.

Lemma with_rng_returns {A : Type} (f : RNG → (exn + A) * RNG) w r g :
  f (rng w) = (r, g) →
  with_rng f w = (r, {| rng := g; files := files w; trace := trace w |}).
Proof. intros Hf. unfold with_rng. by rewrite Hf. Qed.

End PyFacts.

(** ** Empty batches *)

Section EmptyBatch.
Context {V : Type} `{P : Platform V}.

(** C4: asked for zero samples, each of the three concrete samplers
    returns the empty list and leaves the world as it found it: the random
    state is not advanced, no file is written or read, no process is run,
    and nothing is added to the trace (so the tool sampler calls neither
    the noise model nor the external script). *)
Theorem get_samples_zero (w : World) :
  (∀ self : GaussianSampler, GaussianSampler_get_samples self 0 w = (inr [], w))
  ∧ (∀ self : KdeSampler, KdeSampler_get_samples self 0 w = (inr [], w))
  ∧ (∀ self : ToolSampler, ToolSampler_get_samples self 0 w = (inr [], w))
  ∧ (∀ self : ToolSampler,
       let w' := (ToolSampler_get_samples self 0 w).2 in
       files w' = files w ∧ trace w' = trace w ∧ rng w' = rng w).
Proof. split_and!; intros self; done. Qed.

End EmptyBatch.

(** ** GaussianSampler *)

Section Gaussian.
Context {V : Type} `{P : Platform V}.

Lemma np_diag_length (v : list V) : length (np_diag v) = length v.
Proof. unfold np_diag. by rewrite length_imap. Qed.

Lemma np_diag_rows (v : list V) :
  Forall (λ row, length row = length v) (np_diag v).
Proof.
  apply Forall_lookup. intros i row. unfold np_diag.
  rewrite list_lookup_imap. intros Hrow.
  apply fmap_Some in Hrow as (x & _ & ->).
  by rewrite length_insert, length_replicate.
Qed.

Lemma np_diag_entry (v : list V) i j x :
  v !! i = Some x → (j < length v)%nat →
  np_diag v !! i ≫= (.!! j) = Some (if decide (i = j) then x else fzero).
Proof.
  intros Hi Hj. unfold np_diag. rewrite list_lookup_imap, Hi. cbn.
  destruct (decide (i = j)) as [->|Hne].
  - apply list_lookup_insert_eq. by rewrite length_replicate.
  - rewrite list_lookup_insert_ne by done. by apply lookup_replicate_2.
Qed.

Lemma np_square_length (m : list (list V)) : length (np_square m) = length m.
Proof. unfold np_square. by rewrite length_map. Qed.

Lemma np_square_rows (m : list (list V)) n :
  Forall (λ row, length row = n) m → Forall (λ row, length row = n) (np_square m).
Proof.
  unfold np_square. intros Hm. apply Forall_map.
  eapply Forall_impl; [exact Hm|]. intros row Hrow. cbn. by rewrite length_map.
Qed.

Lemma np_square_entry (m : list (list V)) i j x :
  m !! i ≫= (.!! j) = Some x →
  np_square m !! i ≫= (.!! j) = Some (fmul x x).
Proof.
  unfold np_square. rewrite list_lookup_fmap.
  destruct (m !! i) as [row|]; cbn; [|done].
  rewrite list_lookup_fmap. by intros ->.
Qed.

(** C3: for a sampler whose means are a non-empty vector and whose
    standard deviations have the same length, and a positive count, numpy
    is asked for [count] vectors from the normal law whose mean is
    [attribute_means] and whose covariance matrix is diagonal with the
    squared standard deviations (every off-diagonal entry is the square of
    zero); under numpy's contract the draw returns, and [get_samples]
    returns exactly [count] samples, the i-th one being [make_sample] of
    the i-th drawn vector; only the random state changes. *)
Theorem GaussianSampler_get_samples_count (self : GaussianSampler) (count : Z) (w : World) :
  multivariate_normal_contract →
  attribute_means self ≠ [] →
  length (attribute_stds self) = length (attribute_means self) →
  0 < count →
  let cov := np_square (np_diag (attribute_stds self)) in
  (∀ i j σ, attribute_stds self !! i = Some σ →
            (j < length (attribute_stds self))%nat →
            cov !! i ≫= (.!! j)
            = Some (if decide (i = j) then fmul σ σ else fmul fzero fzero))
  ∧ ∃ rows g',
      multivariate_normal (attribute_means self) cov count (rng w) = (inr rows, g')
      ∧ GaussianSampler_get_samples self count w
        = (inr (map (make_sample self) rows),
           {| rng := g'; files := files w; trace := trace w |})
      ∧ length (map (make_sample self) rows) = Z.to_nat count
      ∧ Forall (λ row, length row = length (attribute_means self)) rows.
Proof.
  intros Hnumpy Hmeans Hstds Hcount cov. split.
  - intros i j σ Hi Hj. unfold cov.
    pose proof (np_diag_entry _ i j σ Hi Hj) as Hd.
    apply np_square_entry in Hd. rewrite Hd. by destruct (decide (i = j)).
  - destruct (Hnumpy (attribute_means self) cov count (rng w)) as (rows & g' & Hdraw & Hlen & Hrows);
      try done.
    + unfold cov. by rewrite np_square_length, np_diag_length.
    + unfold cov. apply np_square_rows. rewrite <- Hstds. apply np_diag_rows.
    + exists rows, g'. split_and!; try done.
      * unfold GaussianSampler_get_samples.
        rewrite bool_decide_eq_false_2 by lia.
        erewrite bind_returns; [reflexivity|]. by apply with_rng_returns.
      * by rewrite length_map.
Qed.

End Gaussian.

Lemma Fixture_normal_contract tool :
  @multivariate_normal_contract Z (Fixture.platform tool).
Proof.
  intros mean cov size g Hmean Hcov Hrows Hsize. cbn.
  unfold Fixture.normal, Fixture.well_shaped.
  rewrite bool_decide_eq_true_2 by done.
  rewrite bool_decide_eq_true_2 by lia. cbn.
  eexists _, _. split_and!; [done| |].
  - by rewrite length_replicate.
  - by apply Forall_replicate.
Qed.

Lemma GaussianSampler_get_samples_count_witness :
  (GaussianSampler_get_samples Fixture.gaussian_ab 2
     (Fixture.world Fixture.idle 0%nat ∅)).1
  = inr (map (make_sample Fixture.gaussian_ab) [[10; 20]; [10; 20]]).
Proof.
  destruct (@GaussianSampler_get_samples_count Z Fixture.idle Fixture.gaussian_ab 2
              (Fixture.world Fixture.idle 0%nat ∅) (Fixture_normal_contract _))
    as (_ & rows & g' & Hdraw & Hrun & _); [done|done|lia|].
  rewrite Hrun.
  assert (Hrows : (inr [[10; 20]; [10; 20]], 1%nat)
                  = (inr rows, g') :> (exn + list (list Z)) * nat) by exact Hdraw.
  by injection Hrows as <- _.
Defined.

(** ** KdeSampler *)

Section Kde.
Context {V : Type} `{P : Platform V}.

Lemma dict_contains_true (d : gmap string V) name :
  dict_contains d name = true ↔ is_Some (d !! name).
Proof. unfold dict_contains. apply bool_decide_eq_true. Qed.

Lemma dict_contains_false (d : gmap string V) name :
  dict_contains d name = false ↔ d !! name = None.
Proof.
  unfold dict_contains. rewrite bool_decide_eq_false.
  symmetry. apply eq_None_not_Some.
Qed.

Lemma fit_items_names (constants : gmap string V) items fitted :
  fit_items constants items = inr fitted →
  ∀ name, name ∈ fitted.*1 → constants !! name = None ∧ name ∈ items.*1.
Proof.
  revert fitted. induction items as [|[name0 data] items IH]; intros fitted; cbn.
  - intros [= <-] name Hin. by apply elem_of_nil in Hin.
  - destruct (dict_contains constants name0) eqn:Hc.
    + intros Hfit name Hin. destruct (IH _ Hfit name Hin). split; [done|].
      by apply elem_of_cons; right.
    + destruct (gaussian_kde data) as [e|estimate]; [done|].
      destruct (fit_items constants items) as [e|fitted']; [done|].
      intros [= <-] name Hin. cbn in Hin. apply elem_of_cons in Hin as [->|Hin].
      * split; [by apply dict_contains_false|]. by apply elem_of_cons; left.
      * destruct (IH _ eq_refl name Hin). split; [done|].
        by apply elem_of_cons; right.
Qed.

(** A sampler built by [__init__] has no estimate for a constant and none
    for a name without historical data. *)
Lemma KdeSampler_init_estimates names mf vf (cs : gmap string V) data self :
  KdeSampler_init names mf vf cs data = inr self →
  attribute_names self = names
  ∧ constants self = cs
  ∧ (∀ name, is_Some (cs !! name) → kde_estimates self !! name = None)
  ∧ (∀ name, data !! name = None → kde_estimates self !! name = None).
Proof.
  unfold KdeSampler_init.
  destruct (fit_items cs (map_to_list data)) as [e|fitted] eqn:Hfit; [done|].
  intros [= <-]. cbn. split_and!; try done.
  - intros name [c Hc]. apply dict_lookup_unbound. intros Hin.
    destruct (fit_items_names _ _ _ Hfit name Hin) as [Hnone _]. congruence.
  - intros name Hnone. apply dict_lookup_unbound. intros Hin.
    destruct (fit_items_names _ _ _ Hfit name Hin) as [_ Hdata].
    apply list_elem_of_fmap in Hdata as ([name' d] & -> & Hdata).
    apply elem_of_map_to_list in Hdata. cbn in Hnone. congruence.
Qed.

(** The constant branch of the loop body always returns and has no effect. *)
Lemma kde_constant_step (self : KdeSampler) (count : Z) name (data : list (list V)) w :
  ∃ data1,
    (if dict_contains (constants self) name
     then let! c := lift (dict_getitem (constants self) name) in
          ret (data ++ [list_repeat count c])
     else ret data) w = (inr data1, w)
    ∧ data1 = match constants self !! name with
              | Some c => data ++ [list_repeat count c]
              | None => data
              end.
Proof.
  destruct (dict_contains (constants self) name) eqn:Hc.
  - apply dict_contains_true in Hc as [c Hc].
    exists (data ++ [list_repeat count c]). rewrite Hc. split; [|done].
    unfold bind, lift, dict_getitem. by rewrite Hc.
  - apply dict_contains_false in Hc. exists data. by rewrite Hc.
Qed.

(** The loop raises as soon as it meets a name without an estimate. *)
Lemma kde_columns_missing_estimate (self : KdeSampler) count names data w :
  (∃ name, name ∈ names ∧ kde_estimates self !! name = None) →
  ∃ e w', kde_columns self count names data w = (inl e, w').
Proof.
  revert data w. induction names as [|name names IH]; intros data w (bad & Hin & Hbad).
  { by apply elem_of_nil in Hin. }
  cbn [kde_columns].
  destruct (kde_constant_step self count name data w) as (data1 & Hstep & _).
  rewrite (bind_returns _ _ _ _ _ Hstep).
  destruct (kde_estimates self !! name) as [estimate|] eqn:Hest.
  - erewrite bind_returns; [|unfold lift, dict_getitem; by rewrite Hest].
    destruct (with_rng (kde_resample estimate count) w) as [[e|column] w1] eqn:Hdraw.
    + rewrite (bind_raises _ _ _ _ _ Hdraw). eauto.
    + rewrite (bind_returns _ _ _ _ _ Hdraw). apply IH.
      exists bad. split; [|done].
      apply elem_of_cons in Hin as [->|Hin]; [congruence|done].
  - erewrite bind_raises; [eauto|]. unfold lift, dict_getitem. by rewrite Hest.
Qed.

(** When the first attribute name is a constant the exception is the
    [KeyError] of that name, raised before anything is drawn. *)
Lemma kde_columns_constant_first (self : KdeSampler) count name names data w :
  kde_estimates self !! name = None →
  kde_columns self count (name :: names) data w = (inl (KeyError name), w).
Proof.
  intros Hest. cbn [kde_columns].
  destruct (kde_constant_step self count name data w) as (data1 & Hstep & _).
  rewrite (bind_returns _ _ _ _ _ Hstep).
  erewrite bind_raises; [done|]. unfold lift, dict_getitem. by rewrite Hest.
Qed.

(** Without constants among the names the loop appends one resampled
    column per attribute name, in order, and touches the random state only. *)
Lemma kde_columns_returns (self : KdeSampler) (count : Z) names data w :
  kde_resample_contract →
  0 < count →
  Forall (λ name, constants self !! name = None
                  ∧ is_Some (kde_estimates self !! name)) names →
  ∃ columns w',
    kde_columns self count names data w = (inr (data ++ columns), w')
    ∧ length columns = length names
    ∧ Forall (λ column, length column = Z.to_nat count) columns
    ∧ files w' = files w ∧ trace w' = trace w.
Proof.
  intros Hscipy Hcount. revert data w.
  induction names as [|name names IH]; intros data w Hnames.
  - exists [], w. cbn. by rewrite app_nil_r.
  - apply Forall_cons in Hnames as [[Hconst [estimate Hest]] Hnames].
    cbn [kde_columns].
    destruct (kde_constant_step self count name data w) as (data1 & Hstep & ->).
    rewrite (bind_returns _ _ _ _ _ Hstep), Hconst.
    erewrite bind_returns; [|unfold lift, dict_getitem; by rewrite Hest].
    destruct (Hscipy estimate count (rng w) Hcount) as (column & g' & Hdraw & Hlen).
    rewrite (bind_returns _ _ _ _ _ (with_rng_returns _ _ _ _ Hdraw)).
    destruct (IH (data ++ [column])
                {| rng := g'; files := files w; trace := trace w |} Hnames)
      as (columns & w' & Hloop & Hcols & Hlens & Hfiles & Htrace).
    exists (column :: columns), w'. rewrite Hloop, <- app_assoc.
    split_and!; try done.
    + cbn. by rewrite Hcols.
    + by constructor.
Qed.

(** The part of C2 the code does implement: with at least one attribute
    name, none of them a constant and each with a fitted estimate,
    [get_samples] returns [count] samples; sample [i] is made from draw [i]
    of every attribute's column, in the order of [attribute_names]. *)
Lemma KdeSampler_get_samples_without_constants (self : KdeSampler) (count : Z) w :
  kde_resample_contract →
  0 < count →
  attribute_names self ≠ [] →
  Forall (λ name, constants self !! name = None
                  ∧ is_Some (kde_estimates self !! name)) (attribute_names self) →
  ∃ columns w',
    KdeSampler_get_samples self count w
    = (inr (map (make_sample self) (zip_star columns)), w')
    ∧ length columns = length (attribute_names self)
    ∧ length (map (make_sample self) (zip_star columns)) = Z.to_nat count
    ∧ (∀ i, (i < Z.to_nat count)%nat →
            zip_star columns !! i = mapM (.!! i) columns)
    ∧ files w' = files w ∧ trace w' = trace w.
Proof.
  intros Hscipy Hcount Hnonempty Hnames.
  destruct (kde_columns_returns self count (attribute_names self) [] w
              Hscipy Hcount Hnames)
    as (columns & w' & Hloop & Hcols & Hlens & Hfiles & Htrace).
  cbn in Hloop. exists columns, w'.
  assert (columns ≠ []) by (intros ->; by destruct (attribute_names self)).
  split_and!; try done.
  - unfold KdeSampler_get_samples. rewrite bool_decide_eq_false_2 by lia.
    by rewrite (bind_returns _ _ _ _ _ Hloop).
  - rewrite length_map. by eapply zip_star_length.
  - intros i Hi. by eapply zip_star_lookup.
Qed.

(** C2: a sampler built by the constructor has no estimate for a
    constant, and the loop looks one up for every attribute name, constant
    or not.  So whenever some attribute name is a constant and the count
    is not zero, [get_samples] raises instead of returning samples. *)
Theorem KdeSampler_get_samples_constant_raises
    names mf vf (cs : gmap string V) data (self : KdeSampler) (count : Z) (w : World) :
  KdeSampler_init names mf vf cs data = inr self →
  count ≠ 0 →
  (∃ name, name ∈ names ∧ is_Some (cs !! name)) →
  ∃ e w', KdeSampler_get_samples self count w = (inl e, w').
Proof.
  intros Hinit Hcount (name & Hin & Hconst).
  destruct (KdeSampler_init_estimates _ _ _ _ _ _ Hinit) as (Hnames & _ & Hnone & _).
  unfold KdeSampler_get_samples. rewrite bool_decide_eq_false_2 by done.
  destruct (kde_columns_missing_estimate self count (attribute_names self) [] w)
    as (e & w' & Hloop).
  { exists name. rewrite Hnames. split; [done|]. by apply Hnone. }
  exists e, w'. by rewrite (bind_raises _ _ _ _ _ Hloop).
Qed.

End Kde.

Lemma KdeSampler_get_samples_constant_raises_witness :
  ∃ e w', KdeSampler_get_samples Fixture.kde_ab 2
            (Fixture.world Fixture.idle 0%nat ∅) = (inl e, w').
Proof.
  apply (@KdeSampler_get_samples_constant_raises Z Fixture.idle
           ["a"; "b"] Fixture.metric_zero Fixture.always_valid
           {["b" := 5]} {["a" := [1; 2]]} Fixture.kde_ab 2
           (Fixture.world Fixture.idle 0%nat ∅)).
  - reflexivity.
  - lia.
  - exists "b". split; [set_solver|]. exists 5. reflexivity.
Defined.

(** At that input the exception is [KeyError 'b'], raised after one
    column was drawn for ['a']. *)
Example KdeSampler_constant_key_error :
  KdeSampler_init (P := Fixture.idle) ["a"; "b"] Fixture.metric_zero
    Fixture.always_valid {["b" := 5]} {["a" := [1; 2]]} = inr Fixture.kde_ab
  ∧ KdeSampler_get_samples Fixture.kde_ab 2 (Fixture.world Fixture.idle 0%nat ∅)
    = (inl (KeyError "b"), Fixture.world Fixture.idle 1%nat ∅).
Proof. split; reflexivity. Qed.

(** ** SamplerSet *)

Section Set_.
Context {V : Type} `{P : Platform V}.
Implicit Types (ss : list AnySampler) (cs : list Z) (w : World).

Lemma py_map_length {A B : Type} (f : A → Py B) (l : list A) w ys w' :
  py_map f l w = (inr ys, w') → length ys = length l.
Proof.
  revert w ys. induction l as [|x l IH]; intros w ys; cbn [py_map].
  - by intros [= <- _].
  - intros Hrun. apply bind_inv in Hrun as (y & w1 & _ & Hrun).
    apply bind_inv in Hrun as (ys' & w2 & Hrest & Hret).
    injection Hret as <- <-. cbn. f_equal. by eapply IH.
Qed.

Lemma invoked_in_order_lengths ss cs w outs w' :
  invoked_in_order ss cs w outs w' →
  length ss = length cs ∧ length outs = length cs.
Proof. induction 1; cbn; [done|]. lia. Qed.

(** The list comprehension returns exactly when the paired calls, made in
    order, all return. *)
Lemma SamplerSet_get_samples_run ss cs w outs w' :
  length ss = length cs →
  SamplerSet_get_samples {| samplers := ss |} cs w = (inr outs, w')
  ↔ invoked_in_order ss cs w outs w'.
Proof.
  unfold SamplerSet_get_samples. cbn [samplers].
  revert cs w outs. induction ss as [|s ss IH]; intros [|c cs] w outs Hlen;
    try done; cbn [zip zip_with py_map].
  - split.
    + intros [= <- <-]. constructor.
    + by inversion 1.
  - injection Hlen as Hlen. split.
    + intros Hrun. apply bind_inv in Hrun as (out & w1 & Hcall & Hrun).
      apply bind_inv in Hrun as (outs' & w2 & Hrest & Hret).
      injection Hret as <- <-. econstructor; [done|]. by apply IH.
    + inversion 1 as [|? ? ? ? ? out w1 outs' ? Hcall Hrest]; subst.
      cbn in Hcall. rewrite (bind_returns _ _ _ _ _ Hcall).
      apply IH in Hrest; [|done]. by rewrite (bind_returns _ _ _ _ _ Hrest).
Qed.

(** In a run, output [i] is what sampler [i] returned for count [i]. *)
Lemma invoked_in_order_lookup ss cs w outs w' i s c :
  invoked_in_order ss cs w outs w' →
  ss !! i = Some s → cs !! i = Some c →
  ∃ out wi wi', outs !! i = Some out ∧ get_samples s c wi = (inr out, wi').
Proof.
  intros Hrun. revert i. induction Hrun as [|s0 ss c0 cs w out w1 outs w2 Hcall _ IH];
    intros [|i] Hs Hc; try done; cbn in *.
  - simplify_eq. eauto.
  - by apply IH.
Qed.

(** If every paired call returns, whatever the world, so does the set. *)
Lemma py_map_get_samples_returns (pairs : list (AnySampler * Z)) w
    (good : list Sample → Z → Prop) :
  (∀ s c w0, (s, c) ∈ pairs →
             ∃ out w1, get_samples s c w0 = (inr out, w1) ∧ good out c) →
  ∃ outs w', py_map (λ sc, get_samples sc.1 sc.2) pairs w = (inr outs, w')
             ∧ Forall2 good outs pairs.*2.
Proof.
  revert w. induction pairs as [|[s c] pairs IH]; intros w Hall; cbn [py_map].
  - exists [], w. split; [done|]. constructor.
  - destruct (Hall s c w) as (out & w1 & Hcall & Hgood); [by apply elem_of_cons; left|].
    destruct (IH w1) as (outs & w2 & Hrest & Hgoods).
    { intros s' c' w0 Hin. apply Hall. by apply elem_of_cons; right. }
    exists (out :: outs), w2. cbn in Hcall.
    rewrite (bind_returns _ _ _ _ _ Hcall), (bind_returns _ _ _ _ _ Hrest).
    split; [done|]. by constructor.
Qed.

(** C5: for as many counts as samplers, [get_samples] returns [outs]
    exactly when the samplers, called one after the other in list order,
    sampler [i] with [sample_counts[i]], all return, and [outs] lists
    what they returned in that order; so [outs] is as long as the input
    and [outs[i]] is the result of sampler [i] on count [i].  When every
    sampler returns as many samples as it is asked for, the call returns
    and [outs[i]] has [sample_counts[i]] elements. *)
Theorem SamplerSet_get_samples_positional (self : SamplerSet) (sample_counts : list Z) w :
  length sample_counts = SamplerSet_len self →
  (∀ outs w', SamplerSet_get_samples self sample_counts w = (inr outs, w')
              ↔ invoked_in_order (samplers self) sample_counts w outs w')
  ∧ (∀ outs w', SamplerSet_get_samples self sample_counts w = (inr outs, w') →
       length outs = SamplerSet_len self
       ∧ ∀ i s c, samplers self !! i = Some s → sample_counts !! i = Some c →
           ∃ out wi wi', outs !! i = Some out
                         ∧ get_samples s c wi = (inr out, wi'))
  ∧ ((∀ s c w0, (s, c) ∈ zip (samplers self) sample_counts →
        ∃ out w1, get_samples s c w0 = (inr out, w1)
                  ∧ length out = Z.to_nat c) →
     ∃ outs w', SamplerSet_get_samples self sample_counts w = (inr outs, w')
                ∧ length outs = SamplerSet_len self
                ∧ Forall2 (λ out c, length out = Z.to_nat c) outs sample_counts).
Proof.
  destruct self as [ss]. unfold SamplerSet_len. cbn [samplers]. intros Hlen.
  split_and!.
  - intros outs w'. by apply SamplerSet_get_samples_run.
  - intros outs w' Hrun. apply SamplerSet_get_samples_run in Hrun; [|done].
    destruct (invoked_in_order_lengths _ _ _ _ _ Hrun). split; [lia|].
    intros i s c. exact (invoked_in_order_lookup _ _ _ _ _ i s c Hrun).
  - intros Hall.
    destruct (py_map_get_samples_returns (zip ss sample_counts) w
                (λ out c, length out = Z.to_nat c) Hall) as (outs & w' & Hrun & Hgood).
    rewrite snd_zip in Hgood by lia.
    exists outs, w'. split_and!; try done.
    apply Forall2_length in Hgood. lia.
Qed.

(** C6 (as the code has it): a length mismatch is not an error.  The
    samplers and counts are paired up to the shorter of the two sequences
    and the rest is ignored: the call behaves as on the truncated
    sequences, a returned list has that shorter length, and the call
    returns whenever every paired sampler call does. *)
Theorem SamplerSet_get_samples_truncates (self : SamplerSet) (sample_counts : list Z) w :
  let n := (SamplerSet_len self `min` length sample_counts)%nat in
  SamplerSet_get_samples self sample_counts w
  = SamplerSet_get_samples {| samplers := take n (samplers self) |}
      (take n sample_counts) w
  ∧ (∀ outs w', SamplerSet_get_samples self sample_counts w = (inr outs, w')
                ↔ invoked_in_order (take n (samplers self)) (take n sample_counts)
                    w outs w')
  ∧ (∀ outs w', SamplerSet_get_samples self sample_counts w = (inr outs, w') →
                length outs = n)
  ∧ ((∀ s c w0, (s, c) ∈ zip (samplers self) sample_counts →
        ∃ out w1, get_samples s c w0 = (inr out, w1)) →
     ∃ outs w', SamplerSet_get_samples self sample_counts w = (inr outs, w')).
Proof.
  destruct self as [ss]. intros n. subst n. unfold SamplerSet_len.
  cbn [samplers]. set (n := (length ss `min` length sample_counts)%nat).
  assert (Htrunc : SamplerSet_get_samples {| samplers := ss |} sample_counts w
                   = SamplerSet_get_samples {| samplers := take n ss |}
                       (take n sample_counts) w).
  { unfold SamplerSet_get_samples. cbn [samplers]. by rewrite zip_take by lia. }
  split_and!.
  - done.
  - intros outs w'. rewrite Htrunc. apply SamplerSet_get_samples_run.
    rewrite !length_take. lia.
  - intros outs w' Hrun. unfold SamplerSet_get_samples in Hrun.
    apply py_map_length in Hrun. rewrite Hrun. apply zip_length_min.
  - intros Hall.
    destruct (py_map_get_samples_returns (zip ss sample_counts) w (λ _ _, True))
      as (outs & w' & Hrun & _).
    { intros s c w0 Hin. destruct (Hall s c w0 Hin) as (out & w1 & ?). eauto. }
    eauto.
Qed.

End Set_.

Lemma Fixture_resample_contract tool :
  @kde_resample_contract Z (Fixture.platform tool).
Proof.
  intros estimate size g Hsize. cbn. unfold Fixture.resample.
  rewrite bool_decide_eq_true_2 by lia.
  eexists _, _. split; [done|]. by rewrite length_replicate.
Qed.

Lemma SamplerSet_get_samples_positional_witness :
  ∃ outs w',
    SamplerSet_get_samples
      {| samplers := [Gaussian Fixture.gaussian_ab; Gaussian Fixture.gaussian_ab] |}
      [2; 0] (Fixture.world Fixture.idle 0%nat ∅) = (inr outs, w')
    ∧ length outs = 2%nat.
Proof.
  exists [map (make_sample Fixture.gaussian_ab) [[10; 20]; [10; 20]]; []],
         (Fixture.world Fixture.idle 1%nat ∅).
  split; [reflexivity|].
  destruct (@SamplerSet_get_samples_positional Z Fixture.idle
              {| samplers := [Gaussian Fixture.gaussian_ab;
                              Gaussian Fixture.gaussian_ab] |}
              [2; 0] (Fixture.world Fixture.idle 0%nat ∅) eq_refl)
    as (_ & Hlen & _).
  exact (proj1 (Hlen _ (Fixture.world Fixture.idle 1%nat ∅) eq_refl)).
Defined.

(** At that input the call returns two batches: two samples drawn by the
    first sampler and none from the second. *)
Example SamplerSet_two_batches :
  SamplerSet_get_samples
    {| samplers := [Gaussian Fixture.gaussian_ab; Gaussian Fixture.gaussian_ab] |}
    [2; 0] (Fixture.world Fixture.idle 0%nat ∅)
  = (inr [map (make_sample Fixture.gaussian_ab) [[10; 20]; [10; 20]]; []],
     Fixture.world Fixture.idle 1%nat ∅).
Proof. reflexivity. Qed.

(** C6, counterexample: two samplers and a single count.  The call
    returns one batch (that of the first sampler) and raises nothing. *)
Lemma SamplerSet_length_mismatch_returns :
  let set := {| samplers := [Gaussian Fixture.gaussian_ab; Gaussian Fixture.gaussian_ab] |} in
  length [2] ≠ SamplerSet_len set
  ∧ SamplerSet_get_samples set [2] (Fixture.world Fixture.idle 0%nat ∅)
    = (inr [map (make_sample Fixture.gaussian_ab) [[10; 20]; [10; 20]]],
       Fixture.world Fixture.idle 1%nat ∅).
Proof. intros set. split; [cbn; lia|]. reflexivity. Qed.

(** ** ToolSampler *)

Section Tool.
Context {V : Type} `{P : Platform V}.
Implicit Types (self : ToolSampler) (w : World).

Lemma map_float_length fields (xs : list V) :
  map_float fields = inr xs → length xs = length fields.
Proof.
  revert xs. induction fields as [|f fields IH]; intros xs; cbn.
  - by intros [= <-].
  - destruct (float_of_string f); [|done].
    destruct (map_float fields) as [e|xs']; [done|].
    intros [= <-]. cbn. f_equal. by apply IH.
Qed.

(** The first field that does not convert decides the exception. *)
Lemma map_float_first_bad before field after (xs : list V) :
  map_float before = inr xs →
  float_of_string field = None →
  map_float (before ++ field :: after) = inl (ValueError field).
Proof.
  revert xs. induction before as [|f before IH]; intros xs; cbn.
  - intros _ Hbad. by rewrite Hbad.
  - destruct (float_of_string f); [|done].
    destruct (map_float before) as [e|xs'] eqn:Hb; [done|].
    intros _ Hbad. by rewrite (IH xs' eq_refl Hbad).
Qed.

Lemma parse_rows_lookup lines (values : list (list V)) :
  parse_rows lines = inr values →
  length values = length lines
  ∧ ∀ i line, lines !! i = Some line →
      ∃ row, values !! i = Some row ∧ map_float (split comma line) = inr row.
Proof.
  revert values. induction lines as [|l lines IH]; intros values; cbn.
  - intros [= <-]. split; [done|]. by intros i line.
  - destruct (map_float (split comma l)) as [e|row] eqn:Hrow; [done|].
    destruct (parse_rows lines) as [e|rows]; [done|].
    intros [= <-]. destruct (IH rows eq_refl) as [Hlen Hrows]. split.
    + cbn. by rewrite Hlen.
    + intros [|i] line Hline; cbn in *.
      * simplify_eq. eauto.
      * by apply Hrows.
Qed.

(** The first row that does not parse decides the exception. *)
Lemma parse_rows_first_bad good bad rest (values : list (list V)) e :
  parse_rows good = inr values →
  map_float (split comma bad) = inl e →
  parse_rows (good ++ bad :: rest) = inl e.
Proof.
  revert values. induction good as [|l good IH]; intros values; cbn.
  - intros _ Hbad. by rewrite Hbad.
  - destruct (map_float (split comma l)); [done|].
    destruct (parse_rows good) as [e'|rows] eqn:Hg; [done|].
    intros _ Hbad. by rewrite (IH rows eq_refl Hbad).
Qed.

Lemma warnings_app (t1 t2 : list (@Event V)) :
  warnings (t1 ++ t2) = warnings t1 ++ warnings t2.
Proof. unfold warnings. apply omap_app. Qed.

(** One call, step by step: once the noise model has returned the
    parameter vectors and the process has terminated, the outcome is a
    function of the files the process left; its exit status is not used. *)
Lemma ToolSampler_get_samples_run self (count : Z) w pv g' status fs :
  count ≠ 0 →
  noise_model self (params self) count (rng w) = (inr pv, g') →
  subprocess_call (tool_command self)
    (<[param_buffer self := savetxt pv]> (files w)) = (status, fs) →
  let before := trace w ++ [AddNoise (params self) count;
                            WriteFile (param_buffer self) (savetxt pv);
                            RunProcess (tool_command self)] in
  ToolSampler_get_samples self count w
  = match fs !! sample_buffer self with
    | None =>
        (inl (IOError (sample_buffer self)),
         {| rng := g'; files := fs; trace := before |})
    | Some content =>
        let lines := file_lines content in
        let header := default EmptyString (head lines) in
        (match parse_rows (tail lines) with
         | inl e => inl e
         | inr values => inr (map (make_sample self) values)
         end,
         {| rng := g'; files := fs;
            trace := before ++ ReadFile (sample_buffer self)
                       :: (if bool_decide (split comma (rstrip header)
                                           ≠ attribute_names self)
                           then [LogWarning mismatch_warning] else []) |})
    end.
Proof.
  intros Hcount Hnoise Hcall before. unfold ToolSampler_get_samples.
  rewrite bool_decide_eq_false_2 by done.
  unfold add_noise, bind, emit, with_rng, write_file, run_process, read_file,
    log_warning, lift, ret; cbn.
  rewrite Hnoise. cbn. rewrite Hcall. cbn.
  destruct (fs !! sample_buffer self) as [content|]; cbn.
  - unfold before. case_bool_decide; cbn;
      destruct (parse_rows (tail (file_lines content))); cbn;
      by rewrite <- !app_assoc.
  - unfold before. by rewrite <- !app_assoc.
Qed.

(** Unfolds one call of [ToolSampler.get_samples] whose noise model and
    process have returned, leaving the case distinction on the files. *)
Ltac tool_run H Hnoise Hcall :=
  match type of Hcall with
  | subprocess_call (tool_command ?self) _ = (?status, ?fs) =>
      match type of Hnoise with
      | noise_model self _ ?count (rng ?w) = (inr ?pv, ?g) =>
          assert (H := ToolSampler_get_samples_run self count w pv g status fs
                         ltac:(lia) Hnoise Hcall);
          cbn zeta in H
      end
  end.


(** C8: when the noise model has returned, the process has terminated and
    left a sample buffer whose header differs from [attribute_names], the
    call logs the mismatch warning once and nothing else; whether it
    returns is decided by the data rows alone, never by the header; and
    when every data row parses it returns one sample per data row, the
    i-th one made from the values of the i-th row in column order. *)
Theorem ToolSampler_header_mismatch self (count : Z) w pv g' status fs content :
  0 < count →
  noise_model self (params self) count (rng w) = (inr pv, g') →
  subprocess_call (tool_command self)
    (<[param_buffer self := savetxt pv]> (files w)) = (status, fs) →
  fs !! sample_buffer self = Some content →
  split comma (rstrip (default EmptyString (head (file_lines content))))
    ≠ attribute_names self →
  let rows := tail (file_lines content) in
  let run := ToolSampler_get_samples self count w in
  warnings (trace run.2) = warnings (trace w) ++ [mismatch_warning]
  ∧ run.1 = match parse_rows rows with
            | inl e => inl e
            | inr values => inr (map (make_sample self) values)
            end
  ∧ ∀ values, parse_rows rows = inr values →
      run.1 = inr (map (make_sample self) values)
      ∧ length (map (make_sample self) values) = length rows
      ∧ ∀ i line, rows !! i = Some line →
          ∃ row, map_float (split comma line) = inr row
                 ∧ map (make_sample self) values !! i = Some (make_sample self row).
Proof.
  intros Hcount Hnoise Hcall Hfile Hheader rows run.
  tool_run Hrun Hnoise Hcall. rewrite Hfile in Hrun.
  rewrite bool_decide_eq_true_2 in Hrun by done.
  fold rows in Hrun. unfold run. rewrite Hrun. cbn [fst snd trace].
  split_and!.
  - rewrite !warnings_app. cbn. by rewrite app_nil_r.
  - done.
  - intros values Hvalues. rewrite Hvalues.
    destruct (parse_rows_lookup _ _ Hvalues) as [Hlen Hrows].
    split_and!; [done|by rewrite length_map|].
    intros i line Hline. destruct (Hrows i line Hline) as (row & Hrow & Hparse).
    exists row. split; [done|]. by rewrite list_lookup_fmap, Hrow.
Qed.

(** C9 (as the code has it): when a data row holds a non-numeric field,
    all rows before it parse and the fields before it in that row convert,
    the call raises the [ValueError] of [float], which carries the text of
    that field and neither the row nor its number; no sample is returned. *)
Theorem ToolSampler_non_numeric_field
    self (count : Z) w pv g' status fs content good bad rest before field after :
  0 < count →
  noise_model self (params self) count (rng w) = (inr pv, g') →
  subprocess_call (tool_command self)
    (<[param_buffer self := savetxt pv]> (files w)) = (status, fs) →
  fs !! sample_buffer self = Some content →
  tail (file_lines content) = good ++ bad :: rest →
  (∃ values, parse_rows good = inr values) →
  split comma bad = before ++ field :: after →
  (∃ xs, map_float before = inr xs) →
  float_of_string field = None →
  (ToolSampler_get_samples self count w).1 = inl (ValueError field).
Proof.
  intros Hcount Hnoise Hcall Hfile Hrows [values Hgood] Hfields [xs Hbefore] Hbad.
  tool_run Hrun Hnoise Hcall. rewrite Hfile in Hrun. rewrite Hrun. cbn [fst].
  rewrite Hrows.
  rewrite (parse_rows_first_bad good bad rest values (ValueError field)); [done|done|].
  rewrite Hfields. by eapply map_float_first_bad.
Qed.

(** C7 (as the code has it): the exit status of the process is not
    looked at.  Once the process has terminated, a missing sample buffer
    makes the call raise [IOError]; with a sample buffer present the
    result is that of parsing its data rows, whatever the status: the
    [ValueError] of the first non-numeric field, or else one sample per
    data row present, however few. *)
Theorem ToolSampler_exit_status_ignored self (count : Z) w pv g' status fs :
  0 < count →
  noise_model self (params self) count (rng w) = (inr pv, g') →
  subprocess_call (tool_command self)
    (<[param_buffer self := savetxt pv]> (files w)) = (status, fs) →
  let run := ToolSampler_get_samples self count w in
  (fs !! sample_buffer self = None →
   run.1 = inl (IOError (sample_buffer self)))
  ∧ (∀ content, fs !! sample_buffer self = Some content →
       run.1 = match parse_rows (tail (file_lines content)) with
               | inl e => inl e
               | inr values => inr (map (make_sample self) values)
               end)
  ∧ (∀ content values,
       fs !! sample_buffer self = Some content →
       parse_rows (tail (file_lines content)) = inr values →
       run.1 = inr (map (make_sample self) values)
       ∧ length (map (make_sample self) values)
         = length (tail (file_lines content)))
  ∧ files run.2 = fs.
Proof.
  intros Hcount Hnoise Hcall run.
  tool_run Hrun Hnoise Hcall. unfold run. rewrite Hrun. split_and!.
  - by intros ->.
  - by intros content ->.
  - intros content values -> Hvalues. cbn [fst]. rewrite Hvalues.
    split; [done|]. rewrite length_map.
    by destruct (parse_rows_lookup _ _ Hvalues).
  - by destruct (fs !! sample_buffer self).
Qed.

End Tool.

Lemma ToolSampler_header_mismatch_witness :
  let tool := Fixture.idle_tool 0 in
  let self := Fixture.tool_ab tool in
  let buffer := Fixture.text ["x,y"; "1,2"; "3,4"] in
  let w := Fixture.world (Fixture.platform tool) 0%nat {["samples.csv" := buffer]} in
  (ToolSampler_get_samples self 2 w).1
  = inr (map (make_sample self) [[1; 2]; [3; 4]])
  ∧ warnings (trace (ToolSampler_get_samples self 2 w).2) = [mismatch_warning].
Proof.
  intros tool self buffer w.
  destruct (ToolSampler_header_mismatch self 2 w [[1; 2]; [1; 2]] 1%nat 0
              (<["params.csv" := savetxt (P := Fixture.platform tool) [[1; 2]; [1; 2]]]>
                 {["samples.csv" := buffer]}) buffer)
    as (Hwarn & _ & Hrows);
    [lia | reflexivity | reflexivity | reflexivity | by vm_compute |].
  destruct (Hrows [[1; 2]; [3; 4]] eq_refl) as (Hrun & _).
  split; [exact Hrun | exact Hwarn].
Defined.

Lemma ToolSampler_non_numeric_field_witness :
  let tool := Fixture.idle_tool 0 in
  let self := Fixture.tool_ab tool in
  let buffer := Fixture.text ["a,b"; "1,2"; "3,x,5"] in
  let w := Fixture.world (Fixture.platform tool) 0%nat {["samples.csv" := buffer]} in
  (ToolSampler_get_samples self 2 w).1 = inl (ValueError "x").
Proof.
  intros tool self buffer w.
  apply (ToolSampler_non_numeric_field self 2 w [[1; 2]; [1; 2]] 1%nat 0
           (<["params.csv" := savetxt (P := Fixture.platform tool) [[1; 2]; [1; 2]]]>
              {["samples.csv" := buffer]}) buffer
           [Fixture.text ["1,2"]] (Fixture.text ["3,x,5"]) [] ["3"] "x" [Fixture.text ["5"]]);
    [lia | reflexivity | reflexivity | reflexivity | reflexivity
    | by exists [[1; 2]] | reflexivity | by exists [3] | reflexivity].
Defined.

(** C9, counterexample: two sample buffers whose non-numeric field sits
    in different rows.  Both calls raise the same exception and leave the
    same trace: what the caller gets does not tell the rows apart. *)
Lemma ToolSampler_parse_error_hides_row :
  let tool := Fixture.idle_tool 0 in
  let self := Fixture.tool_ab tool in
  let first_bad := Fixture.text ["a,b"; "x,2"; "3,4"] in
  let second_bad := Fixture.text ["a,b"; "1,2"; "x,4"] in
  let run buffer :=
    ToolSampler_get_samples self 2
      (Fixture.world (Fixture.platform tool) 0%nat {["samples.csv" := buffer]}) in
  tail (file_lines first_bad) !! 0%nat = Some (Fixture.text ["x,2"])
  ∧ tail (file_lines second_bad) !! 1%nat = Some (Fixture.text ["x,4"])
  ∧ map_float (P := Fixture.platform tool) (split comma (Fixture.text ["1,2"]))
    = inr [1; 2]
  ∧ (run first_bad).1 = inl (ValueError "x")
  ∧ (run second_bad).1 = inl (ValueError "x")
  ∧ trace (run first_bad).2 = trace (run second_bad).2
  ∧ rng (run first_bad).2 = rng (run second_bad).2.
Proof. intros tool self first_bad second_bad run. split_and!; reflexivity. Qed.

Lemma ToolSampler_exit_status_ignored_witness :
  let tool := Fixture.writing_tool "samples.csv" (Fixture.text ["a,b"; "1,2"]) 1 in
  let self := Fixture.tool_ab tool in
  let w := Fixture.world (Fixture.platform tool) 0%nat ∅ in
  (ToolSampler_get_samples self 3 w).1 = inr (map (make_sample self) [[1; 2]]).
Proof.
  intros tool self w.
  destruct (ToolSampler_exit_status_ignored self 3 w [[1; 2]; [1; 2]; [1; 2]] 1%nat 1
              (<["samples.csv" := Fixture.text ["a,b"; "1,2"]]>
                 (<["params.csv" := savetxt (P := Fixture.platform tool)
                                      [[1; 2]; [1; 2]; [1; 2]]]> ∅)))
    as (_ & _ & Hrows & _); [lia | reflexivity | reflexivity |].
  by destruct (Hrows (Fixture.text ["a,b"; "1,2"]) [[1; 2]] eq_refl eq_refl).
Defined.

(** C7, counterexample: the process exits with status 1 after writing a
    sample buffer that holds the header only.  Asked for three samples,
    the call returns the empty list; it raises nothing and logs nothing. *)
Lemma ToolSampler_failed_process_returns_empty :
  let tool := Fixture.writing_tool "samples.csv" (Fixture.text ["a,b"]) 1 in
  let self := Fixture.tool_ab tool in
  let w := Fixture.world (Fixture.platform tool) 0%nat ∅ in
  (subprocess_call (Platform := Fixture.platform tool) (tool_command self)
     (<["params.csv" := savetxt (P := Fixture.platform tool)
                          [[1; 2]; [1; 2]; [1; 2]]]> ∅)).1 = 1
  ∧ (ToolSampler_get_samples self 3 w).1 = inr []
  ∧ warnings (trace (ToolSampler_get_samples self 3 w).2) = []
  ∧ trace (ToolSampler_get_samples self 3 w).2
    = [AddNoise [1; 2] 3;
       WriteFile "params.csv"
         (savetxt (P := Fixture.platform tool) [[1; 2]; [1; 2]; [1; 2]]);
       RunProcess "source run.sh";
       ReadFile "samples.csv"].
Proof. intros tool self w. split_and!; reflexivity. Qed.

(** The parameter buffer written at that input. *)
Example ToolSampler_param_buffer_text :
  savetxt (P := Fixture.idle) [[1; 2]; [1; 2]]
  = Fixture.text ["1.00000,2.00000"; "1.00000,2.00000"].
Proof. reflexivity. Qed.

(** * Further properties *)

(** ** SamplerSet: exceptions and empty requests *)

Section SetFailures.
Context {V : Type} `{P : Platform V}.
Implicit Types (ss : list AnySampler) (cs : list Z) (w : World).

Lemma py_map_app {A B : Type} (f : A → Py B) (l1 l2 : list A) w ys w1 :
  py_map f l1 w = (inr ys, w1) →
  py_map f (l1 ++ l2) w
  = match py_map f l2 w1 with
    | (inl e, w2) => (inl e, w2)
    | (inr zs, w2) => (inr (ys ++ zs), w2)
    end.
Proof.
  revert w ys. induction l1 as [|x l1 IH]; intros w ys; cbn [py_map app].
  - intros [= <- <-]. by destruct (py_map f l2 w) as [[e|zs] w2].
  - intros Hrun. apply bind_inv in Hrun as (y & w0 & Hx & Hrun).
    apply bind_inv in Hrun as (ys' & w0' & Hrest & Hret).
    injection Hret as <- <-.
    rewrite (bind_returns _ _ _ _ _ Hx). unfold bind, ret.
    rewrite (IH _ _ Hrest). by destruct (py_map f l2 w0') as [[e|zs] w2].
Qed.

(** X1: when the samplers before position [i] all return and sampler [i]
    raises, the whole call raises that exception in the world sampler [i]
    left: no batch is returned, the samplers after [i] are not called, and
    the effects of the calls made so far stay. *)
Theorem SamplerSet_get_samples_first_failure
    (self : SamplerSet) (sample_counts : list Z) w
    done_ss s rest_ss done_cs c rest_cs outs w1 e w2 :
  samplers self = done_ss ++ s :: rest_ss →
  sample_counts = done_cs ++ c :: rest_cs →
  invoked_in_order done_ss done_cs w outs w1 →
  get_samples s c w1 = (inl e, w2) →
  SamplerSet_get_samples self sample_counts w = (inl e, w2).
Proof.
  intros Hss Hcs Hdone Hfail. unfold SamplerSet_get_samples.
  destruct (invoked_in_order_lengths _ _ _ _ _ Hdone) as [Hlen _].
  rewrite Hss, Hcs, zip_with_app by done. cbn [zip_with].
  apply SamplerSet_get_samples_run in Hdone; [|done].
  unfold SamplerSet_get_samples in Hdone. cbn [samplers] in Hdone.
  rewrite (py_map_app _ _ _ _ _ _ Hdone). cbn [py_map].
  by rewrite (bind_raises _ _ _ _ _ Hfail).
Qed.

(** The abstract [Sampler.get_samples] raises for every count, zero
    included, and has no effect. *)
Lemma Sampler_get_samples_not_implemented (base : Sampler) (count : Z) w :
  get_samples (Abstract base) count w
  = (inl (NotImplementedError "Get samples not implemented"), w).
Proof. reflexivity. Qed.

Lemma get_samples_zero_concrete (s : AnySampler) w :
  match s with Abstract _ => False | _ => True end →
  get_samples s 0 w = (inr [], w).
Proof. by destruct s. Qed.

(** X2: a set of Gaussian, Kde and Tool samplers asked for zero samples
    from each returns one empty batch per paired sampler and leaves the
    world untouched; nothing is drawn, written or run. *)
Theorem SamplerSet_get_samples_zero_counts (self : SamplerSet) (sample_counts : list Z) w :
  Forall (λ s, match s with Abstract _ => False | _ => True end) (samplers self) →
  Forall (λ c, c = 0) sample_counts →
  SamplerSet_get_samples self sample_counts w
  = (inr (replicate (SamplerSet_len self `min` length sample_counts) []), w).
Proof.
  destruct self as [ss]. unfold SamplerSet_get_samples, SamplerSet_len.
  cbn [samplers]. revert sample_counts.
  induction ss as [|s ss IH]; intros [|c cs] Hss Hcs; try done.
  apply Forall_cons in Hss as [Hs Hss]. apply Forall_cons in Hcs as [-> Hcs].
  cbn [zip_with py_map fst snd].
  rewrite (bind_returns _ _ _ _ _ (get_samples_zero_concrete s w Hs)).
  by rewrite (bind_returns _ _ _ _ _ (IH cs Hss Hcs)).
Qed.

End SetFailures.

Lemma SamplerSet_get_samples_first_failure_witness :
  SamplerSet_get_samples
    {| samplers := [Gaussian Fixture.gaussian_ab;
                    Abstract (Fixture.sampler ["a"] ∅);
                    Gaussian Fixture.gaussian_ab] |}
    [2; 1; 1] (Fixture.world Fixture.idle 0%nat ∅)
  = (inl (NotImplementedError "Get samples not implemented"),
     Fixture.world Fixture.idle 1%nat ∅).
Proof.
  apply (@SamplerSet_get_samples_first_failure Z Fixture.idle _ _ _
           [Gaussian Fixture.gaussian_ab] (Abstract (Fixture.sampler ["a"] ∅))
           [Gaussian Fixture.gaussian_ab] [2] 1 [1]
           [map (make_sample Fixture.gaussian_ab) [[10; 20]; [10; 20]]]
           (Fixture.world Fixture.idle 1%nat ∅));
    [reflexivity | reflexivity | | reflexivity].
  econstructor; [reflexivity | constructor].
Defined.

Lemma SamplerSet_get_samples_zero_counts_witness :
  SamplerSet_get_samples
    {| samplers := [Gaussian Fixture.gaussian_ab; Kde Fixture.kde_ab;
                    Tool (Fixture.tool_ab (Fixture.idle_tool 0))] |}
    [0; 0; 0] (Fixture.world Fixture.idle 0%nat ∅)
  = (inr [[]; []; []], Fixture.world Fixture.idle 0%nat ∅).
Proof.
  apply (@SamplerSet_get_samples_zero_counts Z Fixture.idle
           {| samplers := [Gaussian Fixture.gaussian_ab; Kde Fixture.kde_ab;
                           Tool (Fixture.tool_ab (Fixture.idle_tool 0))] |}
           [0; 0; 0]).
  - by repeat constructor.
  - by repeat constructor.
Defined.

(** ** KdeSampler: construction *)

Section KdeInit.
Context {V : Type} `{P : Platform V}.

Lemma dict_lookup_NoDup {A : Type} (l : list (string * A)) k v :
  NoDup l.*1 → dict l !! k = Some v ↔ (k, v) ∈ l.
Proof.
  intros Hnd.
  assert (Hin : ∀ v', (k, v') ∈ l → dict l !! k = Some v').
  { intros v' Hv'. apply list_elem_of_lookup in Hv' as [i Hi].
    apply (dict_lookup_last _ i); [done|]. intros j v'' Hlt Hj.
    assert (l.*1 !! i = Some k) as Hki by (by rewrite list_lookup_fmap, Hi).
    assert (l.*1 !! j = Some k) as Hkj by (by rewrite list_lookup_fmap, Hj).
    pose proof (NoDup_lookup _ _ _ _ Hnd Hki Hkj). lia. }
  split; [|apply Hin].
  intros Hk. destruct (decide (k ∈ l.*1)) as [Hmem|Hmem].
  - apply list_elem_of_fmap in Hmem as ([k' v'] & -> & Hmem).
    rewrite (Hin v' Hmem) in Hk. by simplify_eq.
  - by rewrite dict_lookup_unbound in Hk.
Qed.

(** What the list comprehension of [__init__] yields when no fit raises. *)
Lemma fit_items_elem (cs : gmap string V) items fitted :
  fit_items cs items = inr fitted →
  fitted.*1 = filter (λ name, cs !! name = None) items.*1
  ∧ ∀ name e, (name, e) ∈ fitted ↔
      ∃ data, (name, data) ∈ items ∧ cs !! name = None
              ∧ gaussian_kde data = inr e.
Proof.
  revert fitted. induction items as [|[name0 data0] items IH]; intros fitted; cbn.
  - intros [= <-]. split; [done|]. intros name e. split.
    + by intros ?%elem_of_nil.
    + by intros (data & ?%elem_of_nil & _).
  - destruct (dict_contains cs name0) eqn:Hc.
    + apply dict_contains_true in Hc. intros Hfit.
      destruct (IH _ Hfit) as [Hkeys Helem]. split.
      * destruct (decide (cs !! name0 = None)) as [Hn|_]; [|done].
        rewrite Hn in Hc. by destruct Hc.
      * intros name e. rewrite Helem. split.
        -- intros (data & Hin & ?). exists data. split; [|done].
           by apply elem_of_cons; right.
        -- intros (data & Hin & Hnone & Hfitd).
           apply elem_of_cons in Hin as [[= -> ->]|Hin].
           ++ rewrite Hnone in Hc. by destruct Hc.
           ++ eauto.
    + apply dict_contains_false in Hc.
      destruct (gaussian_kde data0) as [err|estimate] eqn:Hfit0; [done|].
      destruct (fit_items cs items) as [err|fitted'] eqn:Hrest; [done|].
      intros [= <-]. destruct (IH _ eq_refl) as [Hkeys Helem]. split.
      * cbn. destruct (decide (cs !! name0 = None)); [|done]. by rewrite Hkeys.
      * intros name e. rewrite elem_of_cons, Helem. split.
        -- intros [[= -> ->]|(data & Hin & ?)].
           ++ exists data0. split; [by apply elem_of_cons; left|done].
           ++ exists data. split; [by apply elem_of_cons; right|done].
        -- intros (data & Hin & Hnone & Hfitd).
           apply elem_of_cons in Hin as [[= -> ->]|Hin].
           ++ left. congruence.
           ++ right. eauto.
Qed.

Lemma fit_items_returns (cs : gmap string V) items :
  (∃ fitted, fit_items cs items = inr fitted)
  ↔ Forall (λ item, cs !! item.1 = None →
                    ∃ e, gaussian_kde item.2 = inr e) items.
Proof.
  induction items as [|[name0 data0] items IH]; cbn.
  - split; [constructor|eauto].
  - rewrite Forall_cons. cbn. destruct (dict_contains cs name0) eqn:Hc.
    + apply dict_contains_true in Hc. rewrite IH. split; [|by intros [_ ?]].
      intros Hall. split; [|done]. intros Hn. rewrite Hn in Hc. by destruct Hc.
    + apply dict_contains_false in Hc.
      destruct (gaussian_kde data0) as [err|estimate].
      * split; [by intros [? ?]|]. intros [Hfit _]. by destruct (Hfit Hc).
      * destruct (fit_items cs items) as [err|fitted'].
        -- split; [by intros [? ?]|]. intros [_ Hall].
           apply IH in Hall as [? ?]. done.
        -- split; [|eauto]. intros _. split; [eauto|]. apply IH. eauto.
Qed.

(** X3: the constructor looks at the historical data only.  It returns
    exactly when the data of every attribute that is not a constant can be
    fitted; the data of a constant is never fitted, and [attribute_names]
    is not consulted, so a name without data is accepted.  The sampler it
    returns holds one estimate per name with data that is not a constant,
    the fit of that name's data, and the four fields it was given. *)
Theorem KdeSampler_init_estimates_exact
    names mf vf (cs : gmap string V) (data : gmap string (list V)) :
  ((∃ self, KdeSampler_init names mf vf cs data = inr self)
   ↔ ∀ name d, data !! name = Some d → cs !! name = None →
               ∃ e, gaussian_kde d = inr e)
  ∧ ∀ self, KdeSampler_init names mf vf cs data = inr self →
      attribute_names self = names
      ∧ metric_function self = mf
      ∧ valid_function self = vf
      ∧ constants self = cs
      ∧ dom (kde_estimates self) = dom data ∖ dom cs
      ∧ ∀ name e, kde_estimates self !! name = Some e ↔
          ∃ d, data !! name = Some d ∧ cs !! name = None
               ∧ gaussian_kde d = inr e.
Proof.
  unfold KdeSampler_init. split.
  - transitivity (∃ fitted, fit_items cs (map_to_list data) = inr fitted).
    + destruct (fit_items cs (map_to_list data)) as [err|fitted];
        split; intros [? ?]; by eauto.
    + rewrite fit_items_returns, Forall_forall. split.
      * intros Hall name d Hd. apply (Hall (name, d)).
        by apply elem_of_map_to_list.
      * intros Hall [name d] Hin. apply Hall. by apply elem_of_map_to_list.
  - destruct (fit_items cs (map_to_list data)) as [err|fitted] eqn:Hfit; [done|].
    intros self [= <-]. cbn.
    destruct (fit_items_elem _ _ _ Hfit) as [Hkeys Helem].
    assert (Hlookup : ∀ name e, dict fitted !! name = Some e ↔
              ∃ d, data !! name = Some d ∧ cs !! name = None
                   ∧ gaussian_kde d = inr e).
    { intros name e. rewrite dict_lookup_NoDup, Helem.
      - by setoid_rewrite elem_of_map_to_list.
      - rewrite Hkeys. apply NoDup_filter, NoDup_fst_map_to_list. }
    split_and!; try done.
    apply set_eq. intros name. rewrite elem_of_difference, !elem_of_dom. split.
    + intros [e He]. apply Hlookup in He as (d & Hd & Hnone & _).
      split; [eauto|]. rewrite Hnone. by intros [? ?].
    + intros [[d Hd] Hnone]. apply eq_None_not_Some in Hnone.
      assert (Hall := proj1 (fit_items_returns cs (map_to_list data))
                        (ex_intro _ fitted Hfit)).
      rewrite Forall_forall in Hall.
      destruct (Hall (name, d)) as [e He]; [by apply elem_of_map_to_list|done|].
      exists e. apply Hlookup. eauto.
Qed.

End KdeInit.

(** ** KdeSampler: sampling *)

Section SampleShape.
Context {V : Type}.

(** A row with one value per attribute name, for distinct names. *)
Lemma make_sample_full_row (self : @Sampler V) (row : list V) :
  length row = length (attribute_names self) →
  dom (attributes (make_sample self row))
    = list_to_set (attribute_names self) ∪ dom (constants self)
  ∧ (∀ k c, constants self !! k = Some c →
            attributes (make_sample self row) !! k = Some c)
  ∧ (NoDup (attribute_names self) →
     ∀ j name, attribute_names self !! j = Some name →
               constants self !! name = None →
               attributes (make_sample self row) !! name = row !! j).
Proof.
  intros Hwidth. split_and!.
  - by rewrite make_sample_dom, Hwidth, firstn_all.
  - intros k c Hc. by apply dict_update_lookup_constant.
  - intros Hnd j name Hname Hnone. apply make_sample_positional; try done.
    + rewrite Hwidth. by apply lookup_lt_Some in Hname.
    + intros j' [Hlt _] Hj'. pose proof (NoDup_lookup _ _ _ _ Hnd Hname Hj'). lia.
Qed.

End SampleShape.

Section KdeSampling.
Context {V : Type} `{P : Platform V}.

(** The loop up to the first name without an estimate. *)
Lemma kde_columns_first_missing (self : KdeSampler) (count : Z) good name rest data w :
  kde_resample_contract →
  0 < count →
  Forall (λ n, is_Some (kde_estimates self !! n)) good →
  kde_estimates self !! name = None →
  ∃ w', kde_columns self count (good ++ name :: rest) data w
        = (inl (KeyError name), w')
        ∧ files w' = files w ∧ trace w' = trace w.
Proof.
  intros Hscipy Hcount Hgood Hmissing. revert data w.
  induction good as [|n good IH]; intros data w.
  - exists w. by rewrite app_nil_l, kde_columns_constant_first.
  - apply Forall_cons in Hgood as [[estimate Hest] Hgood].
    cbn [app kde_columns].
    destruct (kde_constant_step self count n data w) as (data1 & Hstep & _).
    rewrite (bind_returns _ _ _ _ _ Hstep).
    erewrite bind_returns; [|unfold lift, dict_getitem; by rewrite Hest].
    destruct (Hscipy estimate count (rng w) Hcount) as (column & g' & Hdraw & _).
    rewrite (bind_returns _ _ _ _ _ (with_rng_returns _ _ _ _ Hdraw)).
    destruct (IH Hgood (data1 ++ [column])
                {| rng := g'; files := files w; trace := trace w |})
      as (w' & Hloop & Hfiles & Htrace).
    by exists w'.
Qed.

(** X4: an attribute name without a fitted estimate, be it a constant or
    a name that had no historical data, is found only when sampling:
    with the names before it all fitted, a call with a positive count
    raises [KeyError] for that name after drawing the earlier columns;
    neither the files nor the log are touched. *)
Theorem KdeSampler_get_samples_key_error (self : KdeSampler) (count : Z) w good name rest :
  kde_resample_contract →
  0 < count →
  attribute_names self = good ++ name :: rest →
  Forall (λ n, is_Some (kde_estimates self !! n)) good →
  kde_estimates self !! name = None →
  ∃ w', KdeSampler_get_samples self count w = (inl (KeyError name), w')
        ∧ files w' = files w ∧ trace w' = trace w.
Proof.
  intros Hscipy Hcount Hnames Hgood Hmissing.
  destruct (kde_columns_first_missing self count good name rest [] w
              Hscipy Hcount Hgood Hmissing) as (w' & Hloop & Hfiles & Htrace).
  exists w'. split; [|done].
  unfold KdeSampler_get_samples. rewrite bool_decide_eq_false_2 by lia.
  rewrite Hnames. by rewrite (bind_raises _ _ _ _ _ Hloop).
Qed.


(** X6: without attribute names there is no column to transpose, so the
    call returns no sample at all, whatever the count, and does nothing. *)
Theorem KdeSampler_get_samples_no_names (self : KdeSampler) (count : Z) w :
  attribute_names self = [] →
  KdeSampler_get_samples self count w = (inr [], w).
Proof.
  intros Hnames. unfold KdeSampler_get_samples. rewrite Hnames.
  by case_bool_decide.
Qed.

Lemma kde_columns_frame (self : KdeSampler) (count : Z) names data w :
  let w' := (kde_columns self count names data w).2 in
  files w' = files w ∧ trace w' = trace w.
Proof.
  revert data w. induction names as [|name names IH]; intros data w; [done|].
  cbn [kde_columns].
  destruct (kde_constant_step self count name data w) as (data1 & Hstep & _).
  rewrite (bind_returns _ _ _ _ _ Hstep).
  unfold bind, lift, with_rng.
  destruct (dict_getitem (kde_estimates self) name) as [e|estimate]; [done|].
  destruct (kde_resample estimate count (rng w)) as [[e|column] g']; [done|].
  apply (IH (data1 ++ [column]) {| rng := g'; files := files w; trace := trace w |}).
Qed.

(** X7: the Gaussian and the Kde sampler never touch the file system or
    the log: whatever the count and whether the call returns or raises,
    the files and the trace of the world are as before; only the random
    state can change. *)
Theorem sampling_leaves_files_and_log (count : Z) w :
  (∀ self : GaussianSampler,
     let w' := (GaussianSampler_get_samples self count w).2 in
     files w' = files w ∧ trace w' = trace w)
  ∧ (∀ self : KdeSampler,
       let w' := (KdeSampler_get_samples self count w).2 in
       files w' = files w ∧ trace w' = trace w).
Proof.
  split; intros self.
  - unfold GaussianSampler_get_samples. case_bool_decide; [done|].
    unfold bind, with_rng.
    by destruct (multivariate_normal _ _ _ _) as [[e|rows] g'].
  - unfold KdeSampler_get_samples. case_bool_decide; [done|].
    pose proof (kde_columns_frame self count (attribute_names self) [] w) as Hframe.
    unfold bind.
    by destruct (kde_columns self count (attribute_names self) [] w) as [[e|data] w'].
Qed.

End KdeSampling.

Lemma KdeSampler_get_samples_key_error_witness :
  ∃ w', KdeSampler_get_samples Fixture.kde_ab 2 (Fixture.world Fixture.idle 0%nat ∅)
        = (inl (KeyError "b"), w').
Proof.
  destruct (@KdeSampler_get_samples_key_error Z Fixture.idle Fixture.kde_ab 2
              (Fixture.world Fixture.idle 0%nat ∅) ["a"] "b" []
              (Fixture_resample_contract _))
    as (w' & Hrun & _); [lia | reflexivity | | reflexivity |].
  - constructor; [by eexists|constructor].
  - by exists w'.
Defined.


Lemma KdeSampler_get_samples_no_names_witness :
  KdeSampler_get_samples (P := Fixture.idle)
    {| kde_base := Fixture.sampler [] {["c" := 7]}; kde_estimates := ∅ |} 3
    (Fixture.world Fixture.idle 0%nat ∅)
  = (inr [], Fixture.world Fixture.idle 0%nat ∅).
Proof.
  by apply (@KdeSampler_get_samples_no_names Z Fixture.idle).
Defined.

(** ** GaussianSampler: the samples *)

Section GaussianSamples.
Context {V : Type} `{P : Platform V}.


End GaussianSamples.


(** ** make_sample: values shadowed by constants *)

Section MakeSampleShadow.
Context {V : Type}.

Lemma fold_store_agree (names : list string) (values values' : list V)
    (m m' : gmap string V) k :
  length values = length values' →
  m !! k = m' !! k →
  (∀ i, names !! i = Some k → values !! i = values' !! i) →
  fold_left dict_store (zip names values) m !! k
  = fold_left dict_store (zip names values') m' !! k.
Proof.
  revert values values' m m'.
  induction names as [|n names IH]; intros [|x values] [|x' values'] m m' Hlen Hm Hsame;
    try done.
  cbn. apply IH.
  - by injection Hlen.
  - unfold dict_store; cbn. destruct (decide (n = k)) as [->|Hne].
    + rewrite !lookup_insert_eq. f_equal.
      specialize (Hsame 0%nat eq_refl). by injection Hsame.
    + by rewrite !lookup_insert_ne.
  - intros i Hi. apply (Hsame (S i) Hi).
Qed.

(** X9: the value handed in for an attribute name that is also a
    constant plays no role: two value sequences of the same length that
    agree at every position whose name is not a constant give the same
    sample. *)
Theorem make_sample_constant_positions_ignored (self : @Sampler V) (values values' : list V) :
  length values = length values' →
  (∀ i name, attribute_names self !! i = Some name →
             constants self !! name = None →
             values !! i = values' !! i) →
  make_sample self values = make_sample self values'.
Proof.
  intros Hlen Hsame. unfold make_sample. f_equal. apply map_eq. intros k.
  destruct (constants self !! k) as [c|] eqn:Hc.
  - by rewrite !(dict_update_lookup_constant _ _ _ c).
  - rewrite !dict_update_lookup_other by done. unfold dict.
    apply fold_store_agree; [done|done|]. intros i Hi. by apply (Hsame i k).
Qed.

End MakeSampleShadow.

Lemma make_sample_constant_positions_ignored_witness :
  make_sample (Fixture.sampler ["a"; "b"] {["b" := 7]}) [1; 2]
  = make_sample (Fixture.sampler ["a"; "b"] {["b" := 7]}) [1; 99].
Proof.
  apply make_sample_constant_positions_ignored; [done|].
  intros [|[|i]] name Hname Hnone; try done.
  cbn in Hname. by simplify_eq.
Defined.

(** ** ToolSampler: effects, warnings and row shapes *)

Section ToolEffects.
Context {V : Type} `{P : Platform V}.
Implicit Types (self : ToolSampler) (w : World).

(** X10: when the noise model raises, the call raises the same exception
    at once: the parameter buffer is not written, the script is not run
    and the sample buffer is not read; the files are as before. *)
Theorem ToolSampler_noise_failure self (count : Z) w e g' :
  count ≠ 0 →
  noise_model self (params self) count (rng w) = (inl e, g') →
  ToolSampler_get_samples self count w
  = (inl e, {| rng := g'; files := files w;
               trace := trace w ++ [AddNoise (params self) count] |}).
Proof.
  intros Hcount Hnoise. unfold ToolSampler_get_samples.
  rewrite bool_decide_eq_false_2 by done.
  unfold add_noise, bind, emit, with_rng; cbn. by rewrite Hnoise.
Qed.

(** X11: one call only ever appends to the trace, and among what it
    appends there is at most one warning, the header mismatch message; a
    call for zero samples appends nothing. *)
Theorem ToolSampler_at_most_one_warning self (count : Z) w :
  let w' := (ToolSampler_get_samples self count w).2 in
  ∃ new, trace w' = trace w ++ new
         ∧ (warnings new = [] ∨ warnings new = [mismatch_warning])
         ∧ (count = 0 → new = []).
Proof.
  destruct (decide (count = 0)) as [->|Hcount].
  { exists []. cbn. rewrite app_nil_r. split_and!; [done|by left|done]. }
  destruct (noise_model self (params self) count (rng w)) as [[e|pv] g'] eqn:Hnoise.
  { unfold ToolSampler_get_samples. rewrite bool_decide_eq_false_2 by done.
    unfold add_noise, bind, emit, with_rng; cbn. rewrite Hnoise. cbn.
    eexists. split_and!; [done|by left|done]. }
  destruct (subprocess_call (tool_command self)
              (<[param_buffer self := savetxt pv]> (files w))) as [status fs] eqn:Hcall.
  rewrite (ToolSampler_get_samples_run self count w pv g' status fs Hcount Hnoise Hcall).
  destruct (fs !! sample_buffer self) as [content|]; cbn.
  - rewrite <- app_assoc. eexists. split_and!; [done| |done].
    cbn. case_bool_decide; [by right|by left].
  - eexists. split_and!; [done|by left|done].
Qed.


(** X13: when the header of the sample buffer names the attributes in
    order, nothing is logged; if every data row parses the call returns
    one sample per row and appends the four events of a clean run.  For
    distinct attribute names and a row with one field per name, the
    sample of that row binds each name that is not a constant to the
    number read from the field in the name's column. *)
Theorem ToolSampler_header_match self (count : Z) w pv g' status fs content values :
  0 < count →
  noise_model self (params self) count (rng w) = (inr pv, g') →
  subprocess_call (tool_command self)
    (<[param_buffer self := savetxt pv]> (files w)) = (status, fs) →
  fs !! sample_buffer self = Some content →
  split comma (rstrip (default EmptyString (head (file_lines content))))
    = attribute_names self →
  parse_rows (tail (file_lines content)) = inr values →
  ToolSampler_get_samples self count w
  = (inr (map (make_sample self) values),
     {| rng := g'; files := fs;
        trace := trace w ++ [AddNoise (params self) count;
                             WriteFile (param_buffer self) (savetxt pv);
                             RunProcess (tool_command self);
                             ReadFile (sample_buffer self)] |})
  ∧ length values = length (tail (file_lines content))
  ∧ (NoDup (attribute_names self) →
     ∀ i line sample j name field,
       tail (file_lines content) !! i = Some line →
       length (split comma line) = length (attribute_names self) →
       map (make_sample self) values !! i = Some sample →
       attribute_names self !! j = Some name →
       constants self !! name = None →
       split comma line !! j = Some field →
       attributes sample !! name = float_of_string field).
Proof.
  intros Hcount Hnoise Hcall Hfile Hheader Hvalues.
  rewrite (ToolSampler_get_samples_run self count w pv g' status fs
             ltac:(lia) Hnoise Hcall).
  rewrite Hfile. cbn zeta. rewrite Hvalues.
  rewrite bool_decide_eq_false_2 by (by intros []).
  destruct (parse_rows_lookup _ _ Hvalues) as [Hlen Hrows].
  split_and!; [by rewrite <- app_assoc|done|].
  intros Hnd i line sample j name field Hline Hwidth Hsample Hname Hnone Hfield.
  destruct (Hrows i line Hline) as (row & Hrow & Hparse).
  rewrite list_lookup_fmap, Hrow in Hsample. injection Hsample as <-.
  assert (Hrow_width : length row = length (attribute_names self)).
  { by rewrite (map_float_length _ _ Hparse). }
  destruct (make_sample_full_row self row Hrow_width) as (_ & _ & Hpos).
  rewrite (Hpos Hnd j name Hname Hnone).
  clear -Hparse Hfield. revert row j Hparse Hfield.
  induction (split comma line) as [|f fields IH]; intros row j Hparse Hfield; [done|].
  cbn in Hparse. destruct (float_of_string f) as [x|] eqn:Hx; [|done].
  destruct (map_float fields) as [e|xs]; [done|]. injection Hparse as <-.
  destruct j as [|j]; cbn in *.
  - by simplify_eq.
  - by apply IH.
Qed.

(** X14: the number of fields of a data row is not checked against the
    number of attribute names.  When the rows parse, the sample of a row
    has the constants and the first [k] attribute names as keys, [k]
    being the number of fields of that row: a short row yields a sample
    without the trailing attributes and the surplus fields of a long row
    are dropped, with no exception and no warning of its own. *)
Theorem ToolSampler_row_width_unchecked self (count : Z) w pv g' status fs content values :
  0 < count →
  noise_model self (params self) count (rng w) = (inr pv, g') →
  subprocess_call (tool_command self)
    (<[param_buffer self := savetxt pv]> (files w)) = (status, fs) →
  fs !! sample_buffer self = Some content →
  parse_rows (tail (file_lines content)) = inr values →
  (ToolSampler_get_samples self count w).1 = inr (map (make_sample self) values)
  ∧ ∀ i line, tail (file_lines content) !! i = Some line →
      ∃ sample, map (make_sample self) values !! i = Some sample
        ∧ dom (attributes sample)
          = list_to_set (take (length (split comma line)) (attribute_names self))
            ∪ dom (constants self).
Proof.
  intros Hcount Hnoise Hcall Hfile Hvalues.
  rewrite (ToolSampler_get_samples_run self count w pv g' status fs
             ltac:(lia) Hnoise Hcall).
  rewrite Hfile. cbn zeta. rewrite Hvalues. split; [done|].
  destruct (parse_rows_lookup _ _ Hvalues) as [_ Hrows].
  intros i line Hline. destruct (Hrows i line Hline) as (row & Hrow & Hparse).
  exists (make_sample self row). split; [by rewrite list_lookup_fmap, Hrow|].
  by rewrite make_sample_dom, (map_float_length _ _ Hparse).
Qed.

End ToolEffects.

Lemma ToolSampler_noise_failure_witness :
  let tool := Fixture.writing_tool "samples.csv" (Fixture.text ["a,b"; "1,2"]) 0 in
  ToolSampler_get_samples (Fixture.tool_broken_noise tool) 2
    (Fixture.world (Fixture.platform tool) 0%nat ∅)
  = (inl (LibraryError "add_noise"),
     @Build_World Z (Fixture.platform tool) 0%nat ∅ [AddNoise [1; 2] 2]).
Proof.
  intros tool.
  by apply (ToolSampler_noise_failure (Fixture.tool_broken_noise tool) 2
              (Fixture.world (Fixture.platform tool) 0%nat ∅)
              (LibraryError "add_noise") 0%nat).
Defined.


Lemma ToolSampler_header_match_witness :
  let tool := Fixture.idle_tool 0 in
  let self := Fixture.tool_ab tool in
  let buffer := Fixture.text ["a,b"; "1,2"; "3,4"] in
  let w := Fixture.world (Fixture.platform tool) 0%nat {["samples.csv" := buffer]} in
  (ToolSampler_get_samples self 2 w).1
  = inr (map (make_sample self) [[1; 2]; [3; 4]])
  ∧ warnings (trace (ToolSampler_get_samples self 2 w).2) = [].
Proof.
  intros tool self buffer w.
  destruct (ToolSampler_header_match self 2 w [[1; 2]; [1; 2]] 1%nat 0
              (<["params.csv" := savetxt (P := Fixture.platform tool) [[1; 2]; [1; 2]]]>
                 {["samples.csv" := buffer]}) buffer [[1; 2]; [3; 4]])
    as (Hrun & _);
    [lia | reflexivity | reflexivity | reflexivity | reflexivity | reflexivity |].
  rewrite Hrun. split; reflexivity.
Defined.

Lemma ToolSampler_row_width_unchecked_witness :
  let tool := Fixture.idle_tool 0 in
  let self := Fixture.tool_ab tool in
  let buffer := Fixture.text ["a,b"; "1"; "3,4,5"] in
  let w := Fixture.world (Fixture.platform tool) 0%nat {["samples.csv" := buffer]} in
  (ToolSampler_get_samples self 2 w).1
  = inr (map (make_sample self) [[1]; [3; 4; 5]]).
Proof.
  intros tool self buffer w.
  destruct (ToolSampler_row_width_unchecked self 2 w [[1; 2]; [1; 2]] 1%nat 0
              (<["params.csv" := savetxt (P := Fixture.platform tool) [[1; 2]; [1; 2]]]>
                 {["samples.csv" := buffer]}) buffer [[1]; [3; 4; 5]])
    as (Hrun & _);
    [lia | reflexivity | reflexivity | reflexivity | reflexivity |].
  exact Hrun.
Defined.

(** At that input the short row gives a sample without ['b'] and the
    long row one whose third field is dropped. *)
Example ToolSampler_short_and_long_rows :
  let self := Fixture.tool_ab (Fixture.idle_tool 0) in
  attributes (make_sample self [1]) = {["a" := 1]}
  ∧ attributes (make_sample self [3; 4; 5]) = {["a" := 3; "b" := 4]}.
Proof. split; reflexivity. Qed.

(** ** ToolSampler: reading back what [savetxt] writes *)

Section TextFacts.

Lemma string_app_nil (t : string) : EmptyString +:+ t = t.
Proof. reflexivity. Qed.

Lemma string_app_cons c (s t : string) : String c s +:+ t = String c (s +:+ t).
Proof. reflexivity. Qed.

Lemma string_app_assoc (s t u : string) : (s +:+ t) +:+ u = s +:+ (t +:+ u).
Proof.
  induction s as [|c s IH]; [reflexivity|].
  rewrite !string_app_cons. by rewrite IH.
Qed.

Lemma occurs_app c (s t : string) :
  occurs c (s +:+ t) = (occurs c s || occurs c t)%bool.
Proof.
  induction s as [|c' s IH]; [reflexivity|].
  rewrite string_app_cons. cbn [occurs]. rewrite IH. by rewrite orb_assoc.
Qed.

Lemma file_lines_first_line (s t : string) :
  occurs newline s = false →
  file_lines (s +:+ String newline t)
  = (s +:+ String newline EmptyString) :: file_lines t.
Proof.
  induction s as [|c s IH]; rewrite ?string_app_nil, ?string_app_cons;
    cbn [occurs file_lines].
  - by rewrite Ascii.eqb_refl.
  - intros [Hc Hs]%orb_false_elim. rewrite Hc. by rewrite (IH Hs).
Qed.

Lemma split_without_separator sep (s : string) :
  occurs sep s = false → split sep s = [s].
Proof.
  induction s as [|c s IH]; cbn [occurs split]; [done|].
  intros [Hc Hs]%orb_false_elim. rewrite Hc. by rewrite (IH Hs).
Qed.

Lemma split_first_field sep (f t : string) :
  occurs sep f = false →
  split sep (f +:+ String sep t) = f :: split sep t.
Proof.
  induction f as [|c f IH]; rewrite ?string_app_nil, ?string_app_cons;
    cbn [occurs split].
  - by rewrite Ascii.eqb_refl.
  - intros [Hc Hf]%orb_false_elim. rewrite Hc. by rewrite (IH Hf).
Qed.

Lemma occurs_join c sep (fields : list string) :
  occurs c sep = false →
  Forall (λ f, occurs c f = false) fields →
  occurs c (join sep fields) = false.
Proof.
  intros Hsep. induction 1 as [|f fields Hf Hfields IH]; [done|].
  destruct fields as [|g fields]; [done|].
  change (join sep (f :: g :: fields)) with (f +:+ sep +:+ join sep (g :: fields)).
  by rewrite !occurs_app, Hf, Hsep, IH.
Qed.

End TextFacts.

Section SavetxtRoundTrip.
Context {V : Type} `{P : Platform V}.

Lemma map_float_written_row (r : V → V) (row : list V) :
  row ≠ [] → Forall (reads_back r) row →
  map_float (split comma (join "," (map format_float row)
                          +:+ String newline EmptyString))
  = inr (map r row).
Proof.
  intros Hne Hrow. induction Hrow as [|x row (Hc & Hn & Hx & Hxn) Hrow IH]; [done|].
  destruct row as [|y row].
  - cbn [map join]. rewrite split_without_separator.
    + cbn [map_float]. by rewrite Hxn.
    + by rewrite occurs_app, Hc.
  - change (join "," (map format_float (x :: y :: row)))
      with (format_float x +:+ String comma (join "," (map format_float (y :: row)))).
    rewrite string_app_assoc, string_app_cons.
    rewrite split_first_field by done. cbn [map_float]. rewrite Hx.
    by rewrite IH.
Qed.

Lemma parse_rows_savetxt (r : V → V) (rows : list (list V)) :
  Forall (λ row, row ≠ [] ∧ Forall (reads_back r) row) rows →
  parse_rows (file_lines (savetxt rows)) = inr (map (map r) rows).
Proof.
  induction 1 as [|row rows [Hne Hrow] Hrows IH]; [done|].
  change (savetxt (row :: rows))
    with (join "," (map format_float row) +:+ String newline (savetxt rows)).
  rewrite file_lines_first_line.
  - cbn [parse_rows]. rewrite (map_float_written_row r) by done. by rewrite IH.
  - apply occurs_join; [done|]. apply Forall_map.
    eapply Forall_impl; [exact Hrow|]. by intros x (_ & Hn & _).
Qed.

End SavetxtRoundTrip.

Section ToolEcho.
Context {V : Type} `{P : Platform V}.

(** X15: the row reader of [get_samples] reads back the table
    [np.savetxt] writes to the parameter buffer.  If the process leaves a
    sample buffer made of a header line followed by that table, every
    parameter vector is non-empty and every number in it is formatted so
    that it reads back as [r x], then the call returns one sample per
    parameter vector, made from the vector's numbers as read back, in
    order. *)
Theorem ToolSampler_reads_back_parameters
    (self : ToolSampler) (count : Z) (w : World) pv g' status fs header (r : V → V) :
  0 < count →
  noise_model self (params self) count (rng w) = (inr pv, g') →
  subprocess_call (tool_command self)
    (<[param_buffer self := savetxt pv]> (files w)) = (status, fs) →
  fs !! sample_buffer self = Some (header +:+ String newline (savetxt pv)) →
  occurs newline header = false →
  Forall (λ row, row ≠ [] ∧ Forall (reads_back r) row) pv →
  parse_rows (file_lines (savetxt pv)) = inr (map (map r) pv)
  ∧ (ToolSampler_get_samples self count w).1
    = inr (map (make_sample self) (map (map r) pv))
  ∧ length (map (make_sample self) (map (map r) pv)) = length pv.
Proof.
  intros Hcount Hnoise Hcall Hfile Hheader Hpv.
  pose proof (parse_rows_savetxt r pv Hpv) as Hparse.
  split_and!; [done| |by rewrite !length_map].
  rewrite (ToolSampler_get_samples_run self count w pv g' status fs
             ltac:(lia) Hnoise Hcall).
  rewrite Hfile. cbn zeta. rewrite file_lines_first_line by done.
  cbn [tail fst]. by rewrite Hparse.
Qed.

End ToolEcho.

Lemma ToolSampler_reads_back_parameters_witness :
  let self := Fixture.plain_tool_ab Fixture.echo_tool in
  (ToolSampler_get_samples self 2
     (Fixture.world (Fixture.plain_platform Fixture.echo_tool) 0%nat ∅)).1
  = inr (map (make_sample self) [[1; 2]; [1; 2]]).
Proof.
  intros self.
  destruct (ToolSampler_reads_back_parameters self 2
              (Fixture.world (Fixture.plain_platform Fixture.echo_tool) 0%nat ∅)
              [[1; 2]; [1; 2]] 1%nat 0
              (<["samples.csv" := "a,b" +:+ String newline
                                    (savetxt (P := Fixture.plain_platform Fixture.echo_tool)
                                       [[1; 2]; [1; 2]])]>
                 (<["params.csv" := savetxt (P := Fixture.plain_platform Fixture.echo_tool)
                                      [[1; 2]; [1; 2]]]> ∅))
              "a,b" id)
    as (_ & Hrun & _);
    [lia | reflexivity | reflexivity | reflexivity | reflexivity | | exact Hrun].
  repeat constructor; done.
Defined.

(** ** GaussianSampler: means and names of different lengths *)

Section GaussianWidth.
Context {V : Type} `{P : Platform V}.

(** X16: the number of means is never compared with the number of
    attribute names.  The drawn vectors have one entry per mean, so with
    [m] means every sample has the constants and the first [m] attribute
    names as keys: with fewer means than names the trailing attributes are
    missing from every sample, and no exception is raised. *)
Theorem GaussianSampler_get_samples_width (self : GaussianSampler) (count : Z) w :
  multivariate_normal_contract →
  attribute_means self ≠ [] →
  length (attribute_stds self) = length (attribute_means self) →
  0 < count →
  ∃ samples w',
    GaussianSampler_get_samples self count w = (inr samples, w')
    ∧ length samples = Z.to_nat count
    ∧ Forall (λ sample,
        dom (attributes sample)
        = list_to_set (take (length (attribute_means self)) (attribute_names self))
          ∪ dom (constants self)) samples.
Proof.
  intros Hnumpy Hmeans Hstds Hcount.
  destruct (Hnumpy (attribute_means self)
              (np_square (np_diag (attribute_stds self))) count (rng w))
    as (rows & g' & Hdraw & Hlen & Hrows); try done.
  { by rewrite np_square_length, np_diag_length. }
  { apply np_square_rows. rewrite <- Hstds. apply np_diag_rows. }
  exists (map (make_sample self) rows),
    {| rng := g'; files := files w; trace := trace w |}.
  split_and!.
  - unfold GaussianSampler_get_samples. rewrite bool_decide_eq_false_2 by lia.
    by rewrite (bind_returns _ _ _ _ _ (with_rng_returns _ _ _ _ Hdraw)).
  - by rewrite length_map.
  - apply Forall_map. eapply Forall_impl; [exact Hrows|].
    intros row Hrow. cbn beta. by rewrite make_sample_dom, Hrow.
Qed.

End GaussianWidth.

Lemma GaussianSampler_get_samples_width_witness :
  let self := {| gaussian_base := Fixture.sampler ["a"; "b"; "c"] ∅;
                 attribute_means := [10; 20];
                 attribute_stds := [2; 3] |} in
  ∃ samples w',
    GaussianSampler_get_samples self 1 (Fixture.world Fixture.idle 0%nat ∅)
    = (inr samples, w')
    ∧ Forall (λ sample, dom (attributes sample) = {["a"; "b"]}) samples.
Proof.
  intros self.
  destruct (@GaussianSampler_get_samples_width Z Fixture.idle self 1
              (Fixture.world Fixture.idle 0%nat ∅) (Fixture_normal_contract _))
    as (samples & w' & Hrun & _ & Hdom); [done | done | lia |].
  exists samples, w'. split; [done|].
  eapply Forall_impl; [exact Hdom|]. intros sample ->. cbn. set_solver.
Defined.
